(** * salt/client/mixins.py: function dispatch and asynchronous job execution

    A shallow embedding of [SyncClientMixin] and [AsyncClientMixin] and the
    properties of the dispatch layer stated about them.

    Python values are a small universe [pyval]; a raised exception is a value
    of [exn]; code that can raise and that acts on the outside world (the
    event bus, the process table) lives in the monad [M], a state-and-error
    monad over the trace of actions performed so far. *)

From Stdlib Require Import ZArith Lia.
From stdpp Require Import base option list gmap strings sorting.

Set Default Proof Using "Type".

(** ** Python values and exceptions *)

#[local] Unset Elimination Schemes.
Inductive pyval : Type :=
| PyNone
| PyBool (b : bool)
| PyInt (n : Z)
| PyStr (s : string)
| PyList (l : list pyval)
| PyDict (d : list (string * pyval)).
#[local] Set Elimination Schemes.

(** An exception object, as far as this module looks at it: the name of its
    class ([exc.__class__.__name__]), its text ([str(exc)]) and whether its
    class derives from [Exception], which is what [except Exception] tests.
    [SystemExit], [KeyboardInterrupt] and [GeneratorExit] derive from
    [BaseException] only. *)
Record exn : Type := Exn {
  exc_class_name : string;
  exc_str : string;
  exc_is_Exception : bool
}.

Definition CommandExecutionError (err : string) : exn :=
  {| exc_class_name := "CommandExecutionError";
     exc_str := err;
     exc_is_Exception := true |}.

Definition SystemExit (msg : string) : exn :=
  {| exc_class_name := "SystemExit"; exc_str := msg; exc_is_Exception := false |}.

Definition KeyError (msg : string) : exn :=
  {| exc_class_name := "KeyError"; exc_str := msg; exc_is_Exception := true |}.

Definition UnboundLocalError (msg : string) : exn :=
  {| exc_class_name := "UnboundLocalError";
     exc_str := msg;
     exc_is_Exception := true |}.

Definition ValueError (msg : string) : exn :=
  {| exc_class_name := "ValueError"; exc_str := msg; exc_is_Exception := true |}.

Inductive result (A : Type) : Type :=
| Return (a : A)
| Raise (e : exn).
Arguments Return {A} a.
Arguments Raise {A} e.

(** A keyword argument of a call: left to its default, or given. *)
Inductive kwarg (A : Type) : Type :=
| Default
| Given (a : A).
Arguments Default {A}.
Arguments Given {A} a.

(** [str(x)] and [format(x)] of a value that is [None] or a string. *)
Definition py_str (x : option string) : string :=
  match x with
  | None => "None"
  | Some s => s
  end.

(** [s.endswith(suffix)] *)
Definition endswith (s suffix : string) : bool :=
  bool_decide (String.length suffix ≤ String.length s) &&
  String.eqb
    (String.substring (String.length s - String.length suffix)
                      (String.length suffix) s)
    suffix.

(** [s.startswith(p)] *)
Definition startswith (s p : string) : bool := String.prefix p s.

(** ** Callables, call specifications, the client object *)

(** The registry maps a name to a callable: what calling it with positional
    and keyword arguments gives (a value, or a raised exception), and its
    docstring ([None] when it has none). *)
Record callable : Type := Callable {
  call : list pyval → gmap string pyval → result pyval;
  __doc__ : option string
}.

(** The dictionary [salt.utils.format_call] returns: the keys [args] and
    [kwargs], each of which may be absent. *)
Record f_call : Type := FCall {
  fc_args : option (list pyval);
  fc_kwargs : option (gmap string pyval)
}.

Record options : Type := Options {
  sock_dir : string;
  transport : string
}.

(** The attributes of [self] the two mixins read. *)
Record client_obj : Type := Client {
  functions : gmap string callable;
  client : option string;
  tag_prefix : option string;
  opts : options
}.

(** ** Actions on the outside world *)

(** What a process does to the world around it, in the order it does it. An
    event object (a bus connection) is known by the handle it got when
    [get_event] made it. *)
Inductive action : Type :=
| Daemonize
| GetEvent (event : nat) (node : string) (o : options) (listen : bool)
| FireEvent (event : nat) (data : gmap string pyval) (tag : string)
| Call (name : string) (args : list pyval) (kwargs : gmap string pyval)
| DelEvent (event : nat)
| ProcStart (fn : option string) (low : gmap string pyval) (user : pyval)
            (tag jid : string) (fire_event : bool).

(** ** The monad of effectful, fallible code *)

Definition M (A : Type) : Type := list action → result A * list action.

Definition ret {A} (a : A) : M A := λ t, (Return a, t).

Definition raise {A} (e : exn) : M A := λ t, (Raise e, t).

Definition bind {A B} (m : M A) (k : A → M B) : M B :=
  λ t, match m t with
       | (Return a, t') => k a t'
       | (Raise e, t') => (Raise e, t')
       end.

Definition emit (a : action) : M unit := λ t, (Return tt, t ++ [a]).

Definition lift {A} (r : result A) : M A := λ t, (r, t).

(** [try: body / except Exception as exc: handler exc]: only an exception
    whose class derives from [Exception] is handled; any other goes on. *)
Definition try_except_Exception {A} (body : M A) (handler : exn → M A) : M A :=
  λ t, match body t with
       | (Return a, t') => (Return a, t')
       | (Raise e, t') =>
           if exc_is_Exception e then handler e t' else (Raise e, t')
       end.

Declare Scope py_scope.
Delimit Scope py_scope with py.
Notation "x <- m ;; k" := (bind m (λ x, k))
  (at level 100, m at next level, right associativity) : py_scope.
Notation "m ;;; k" := (bind m (λ _, k))
  (at level 100, right associativity) : py_scope.
Local Open Scope py_scope.

(** ** Dictionaries

    A dictionary is kept as its entries in the order of their insertion. This
    order is the history of the dictionary, not the order in which it gives
    its entries back: the module is Python 2 code, where a dictionary
    iterates in the order of the slots of its hash table, [iteritems] below.
    [dict_setitem] is [d[k] = v]: the value of a key already present is
    replaced where it stands, a new key goes to the end. *)
Fixpoint dict_setitem {V} (k : string) (v : V) (d : list (string * V))
  : list (string * V) :=
  match d with
  | [] => [(k, v)]
  | (k', v') :: d' =>
      if decide (k' = k) then (k', v) :: d' else (k', v') :: dict_setitem k v d'
  end.

(** [dict(pairs)] *)
Definition dict {V} (pairs : list (string * V)) : list (string * V) :=
  fold_left (λ d kv, dict_setitem kv.1 kv.2 d) pairs [].

(** *** The hash table of a dictionary

    Modelled from CPython 2.7, the interpreter the module is written for
    ([Objects/stringobject.c], [Objects/dictobject.c]), which is not part of
    this repository: a [long] of 64 bits, hash randomization off as it is
    unless asked for, and no deletion, which [get_docs] never does. *)

Definition wrap64 (x : Z) : Z := (x mod 2 ^ 64)%Z.

Definition ord (ch : Ascii.ascii) : Z := Z.of_N (Ascii.N_of_ascii ch).

(** [string_hash], as the unsigned number the table works with. *)
Definition string_hash (s : string) : Z :=
  match s with
  | "" => 0%Z
  | String first _ =>
      let x := Z.shiftl (ord first) 7 in
      let x :=
        fold_left (λ x ch, Z.lxor (wrap64 (1000003 * x)%Z) (ord ch))
                  (String.list_ascii_of_string s) x in
      let x := Z.lxor x (Z.of_nat (String.length s)) in
      if decide (x = 2 ^ 64 - 1)%Z then (2 ^ 64 - 2)%Z else x
  end.

(** [lookdict_string]: the slot of [key], the one it is in or the first free
    one on its way. The table has [mask + 1] slots; [i] and [perturb] are the
    state of the probe sequence. *)
Fixpoint lookdict {V} (fuel : nat) (table : list (option (string * V)))
    (mask : Z) (key : string) (i perturb : Z) : nat :=
  let slot := Z.to_nat (Z.land i mask) in
  match fuel with
  | 0 => slot
  | S fuel' =>
      match table !! slot with
      | Some (Some (key', _)) =>
          if decide (key' = key) then slot
          else lookdict fuel' table mask key
                        (wrap64 (Z.shiftl i 2 + i + perturb + 1)%Z)
                        (Z.shiftr perturb 5)
      | _ => slot
      end
  end.

(** [insertdict]: the entry goes to the slot of its key. *)
Definition insertdict {V} (table : list (option (string * V)))
    (key : string) (value : V) : list (option (string * V)) :=
  let mask := (Z.of_nat (length table) - 1)%Z in
  let hash := string_hash key in
  let slot := lookdict (64 + length table) table mask key
                       (Z.land hash mask) hash in
  <[slot := Some (key, value)]> table.

(** The size [dictresize] picks: the first power of two above [minused],
    from eight on. *)
Fixpoint newsize (fuel : nat) (size minused : nat) : nat :=
  match fuel with
  | 0 => size
  | S fuel' =>
      if decide (size ≤ minused) then newsize fuel' (2 * size) minused
      else size
  end.

(** [dictresize]: a new table, into which the entries go in the order of
    their slots in the old one. *)
Definition dictresize {V} (table : list (option (string * V)))
    (minused : nat) : list (option (string * V)) :=
  fold_left (λ table' kv, insertdict table' kv.1 kv.2)
            (omap id table)
            (replicate (newsize 64 8 minused) None).

(** [PyDict_SetItem]: after the entry is in, a table that got a new entry
    and is two thirds full is made larger. *)
Definition PyDict_SetItem {V} (table : list (option (string * V)))
    (key : string) (value : V) : list (option (string * V)) :=
  let n_used := length (omap id table) in
  let table' := insertdict table key value in
  let used := length (omap id table') in
  if decide (n_used < used ∧ length table' * 2 ≤ used * 3) then
    dictresize table'
      ((if decide (50000 < Z.of_nat used)%Z then 2 else 4) * used)
  else table'.

(** The entries of a dictionary in the order [iteritems], [keys] and a [for]
    loop give them: the order of their slots, in the table that the
    insertions of its history have made. *)
Definition iteritems {V} (d : list (string * V)) : list (string * V) :=
  omap id (fold_left (λ table kv, PyDict_SetItem table kv.1 kv.2) d
                     (replicate 8 None)).

(** [sorted(names)]: strings compare by their characters' codes. *)
Definition sorted (names : list string) : list string :=
  merge_sort String.le names.

(** Iterating over a registry gives its keys, in no particular order. *)
Definition keys {V} (m : gmap string V) : list string := (map_to_list m).*1.

Definition str_lt (s1 s2 : string) : Prop := String.compare s1 s2 = Lt.

Section Mixins.

(** ** Collaborators that live outside this module *)

(** [salt.utils.event.tagify(suffix, prefix=..., base=...)] *)
Variable tagify : string → kwarg (option string) → kwarg string → string.

(** [salt.utils.format_call(fun, data)]: the call specification reconciled
    with the callable's parameters, or the failure to do so. *)
Variable format_call : callable → gmap string pyval → result f_call.

(** [repr] of a string, for [{0!r}]. *)
Variable py_repr : string → string.

(** The text transformation [salt.utils.doc.strip_rst] applies to a
    docstring. *)
Variable strip_rst_text : string → string.

(** What becomes of one docstring: a missing or empty one is left alone. *)
Definition strip_doc (docstring : option string) : option string :=
  match docstring with
  | Some s => if decide (s = "") then Some s else Some (strip_rst_text s)
  | None => None
  end.

(** Modelled from the spec: [salt.utils.doc.strip_rst] is not part of this
    module. The documentation text of every entry is stripped of markup, and
    the dictionary is returned with the same keys in the same places. *)
Definition _strip_rst (docs : list (string * option string))
  : list (string * option string) :=
  (λ kv, (kv.1, strip_doc kv.2)) <$> docs.

(** ** SyncClientMixin *)

Definition _verify_fun (self : client_obj) (fn : option string) : M unit :=
  match fn with
  | None | Some "" =>
      let err := "Must specify a function to run" in
      raise (CommandExecutionError err)
  | Some name =>
      if decide (name ∉ dom (functions self)) then
        let err := "Function " +:+ py_repr name +:+ " is unavailable" in
        raise (CommandExecutionError err)
      else ret tt
  end.

(** [self.functions[fun]] *)
Definition getitem_functions (self : client_obj) (fn : option string)
  : M callable :=
  match fn ≫= (functions self !!.) with
  | Some l_fun => ret l_fun
  | None => raise (KeyError (from_option py_repr "None" fn))
  end.

(** The call of [l_fun] on the positional and keyword arguments, as an action
    of the running process. *)
Definition invoke (name : option string) (l_fun : callable)
    (args : list pyval) (kwargs : gmap string pyval) : M pyval :=
  emit (Call (py_str name) args kwargs) ;;;
  lift (call l_fun args kwargs).

Definition low (self : client_obj) (fn : option string)
    (low : gmap string pyval) : M pyval :=
  _verify_fun self fn ;;;
  l_fun <- getitem_functions self fn ;;
  f_call <- lift (format_call l_fun low) ;;
  ret_ <- invoke fn l_fun (default [] (fc_args f_call))
                          (default ∅ (fc_kwargs f_call)) ;;
  ret ret_.

(** The list comprehension of [get_docs]. *)
Definition docs_of (self : client_obj) (names : list string)
  : list (string * option string) :=
  (λ fn, (fn, from_option __doc__ None (functions self !! fn))) <$> names.

Definition get_docs (self : client_obj) (arg : option string)
  : list (string * option string) :=
  let docs :=
    match arg with
    | None | Some "" =>
        docs_of self (sorted (keys (functions self)))
    | Some a =>
        let target_mod := if negb (endswith a ".") then a +:+ "." else a in
        docs_of self
          (filter (λ fn, fn = a ∨ startswith fn target_mod = true)
                  (sorted (keys (functions self))))
    end in
  let docs := dict docs in
  _strip_rst docs.

(** ** AsyncClientMixin *)

(** [salt.utils.event.get_event(node, sock_dir, transport, opts=..., listen=...)]
    makes a new event object; its handle is the number of actions done before
    it, which no other event object of the trace has. *)
Definition get_event (node : string) (o : options) (listen : bool) : M nat :=
  λ t, (Return (length t), t ++ [GetEvent (length t) node o listen]).

(** [event.fire_event(data, tag)]: the payload is sent as it is now. *)
Definition fire_event (event : nat) (data : gmap string pyval) (tag : string)
  : M unit :=
  emit (FireEvent event data tag).

(** An event object is destroyed, and its connection closed, when its last
    reference goes. The local variable [event] of [_proc_function] is the
    only reference there is: [del event] takes it away, and so does the end
    of the frame when [event] is still bound. *)
Definition del_event (event : nat) : M unit := emit (DelEvent event).

(** The end of a frame in which the local variable [event] is bound to an
    event object, or unbound. *)
Definition drop_frame (event : option nat) : M unit :=
  match event with
  | Some event => emit (DelEvent event)
  | None => ret tt
  end.

(** The statements of a function after [event] got its binding. They end
    normally, with the binding [event] has then, or with an exception, which
    leaves the binding as it was; either way the frame ends and its local
    variable goes. A frame ended by an exception lasts until the exception is
    dealt with; here it goes as the exception leaves the function. *)
Definition frame_of (event : option nat) (body : M (option nat)) : M unit :=
  λ t, match body t with
       | (Return event', t') => drop_frame event' t'
       | (Raise e, t') => (Raise e, (drop_frame event t').2)
       end.

(** The text put in [data['return']] when the invocation raised. *)
Definition exception_summary (self : client_obj) (fn : option string)
    (exc : exn) : string :=
  "Exception occurred in " +:+ py_str (client self) +:+ " " +:+ py_str fn
    +:+ ": " +:+ exc_class_name exc +:+ ": " +:+ exc_str exc.

Definition _proc_function (self : client_obj) (fn : option string)
    (low_ : gmap string pyval) (user : pyval) (tag jid : string)
    (fire_event_ : bool) : M unit :=
  emit Daemonize ;;;
  let data : gmap string pyval :=
    {[ "fun" := PyStr (py_str (client self) +:+ "." +:+ py_str fn);
       "jid" := PyStr jid;
       "user" := user ]} in
  event <- (if fire_event_ then
              event <- get_event "master" (opts self) false ;;
              fire_event event data (tagify "new" Default (Given tag)) ;;;
              ret (Some event)
            else ret None) ;;
  frame_of event
    (data <- try_except_Exception
               (r <- low self fn low_ ;;
                let data := <["return" := r]> data in
                let data := <["success" := PyBool true]> data in
                ret data)
               (λ exc,
                let data :=
                  <["return" := PyStr (exception_summary self fn exc)]> data in
                let data := <["success" := PyBool false]> data in
                ret data) ;;
     let data := <["user" := user]> data in
     if fire_event_ then
       match event with
       | Some event =>
           fire_event event data (tagify "ret" Default (Given tag)) ;;;
           del_event event ;;;
           ret None
       | None => raise (UnboundLocalError "event")
       end
     else ret event).

(** A reading of the clock, as [datetime.datetime.now()] gives it. *)
Record datetime : Type := Datetime {
  year : N;
  month : N;
  day : N;
  hour : N;
  minute : N;
  second : N;
  microsecond : N
}.

(** The invariant of a [datetime] object. *)
Definition valid_datetime (d : datetime) : Prop :=
  (1 ≤ year d ≤ 9999 ∧ 1 ≤ month d ≤ 12 ∧ 1 ≤ day d ≤ 31 ∧
   hour d < 24 ∧ minute d < 60 ∧ second d < 60 ∧ microsecond d < 1000000)%N.

(** Two [datetime] objects compare as the tuples of their fields do. *)
Definition datetime_compare (a b : datetime) : comparison :=
  let cmp := N.compare in
  match cmp (year a) (year b) with
  | Eq =>
    match cmp (month a) (month b) with
    | Eq =>
      match cmp (day a) (day b) with
      | Eq =>
        match cmp (hour a) (hour b) with
        | Eq =>
          match cmp (minute a) (minute b) with
          | Eq =>
            match cmp (second a) (second b) with
            | Eq => cmp (microsecond a) (microsecond b)
            | c => c
            end
          | c => c
          end
        | c => c
        end
      | c => c
      end
    | c => c
    end
  | c => c
  end.

Definition datetime_lt (a b : datetime) : Prop := datetime_compare a b = Lt.

(** The decimal digit of [n] at position [10 ^ 0]. *)
Definition digit (n : N) : Ascii.ascii :=
  Ascii.ascii_of_N (48 + n mod 10)%N.

(** A number as the [width] decimal digits the directives of [strftime]
    write: [%Y] four, [%m %d %H %M %S] two, [%f] six, zero padded. No field
    of a [datetime] has more digits than its directive writes. *)
Fixpoint zero_padded (width : nat) (n : N) : string :=
  match width with
  | 0 => ""
  | S w => String (digit (n / 10 ^ N.of_nat w)%N) (zero_padded w n)
  end.

(** ['{0:%Y%m%d%H%M%S%f}'.format(now)] *)
Definition format_jid (now : datetime) : string :=
  zero_padded 4 (year now) +:+ zero_padded 2 (month now)
    +:+ zero_padded 2 (day now) +:+ zero_padded 2 (hour now)
    +:+ zero_padded 2 (minute now) +:+ zero_padded 2 (second now)
    +:+ zero_padded 6 (microsecond now).

(** [now] is what [datetime.datetime.now()] returns to this call. Starting the
    process is an action of the caller; what the process then does is
    [proc_run] of that action, in a world of its own. *)
Definition async (self : client_obj) (now : datetime) (fn : option string)
    (low_ : gmap string pyval) (user : pyval) (fire_event_ : bool)
  : M (gmap string pyval) :=
  let jid := format_jid now in
  let tag := tagify jid (Given (tag_prefix self)) Default in
  emit (ProcStart fn low_ user tag jid fire_event_) ;;;
  ret {[ "tag" := PyStr tag; "jid" := PyStr jid ]}.

(** The run of the process an action started: its outcome and the trace of
    what it did. *)
Definition proc_run (self : client_obj) (a : action)
  : option (result unit * list action) :=
  match a with
  | ProcStart fn low_ user tag jid fire_event_ =>
      Some (_proc_function self fn low_ user tag jid fire_event_ [])
  | _ => None
  end.

(** ** Sample collaborators and clients *)

(** Modelled from the spec: [salt.utils.event.tagify] is not part of this
    module. The parts of a tag are its base ([salt] by default), its prefix
    and its suffix; the parts that are not empty are joined with [/], as in
    [salt/job/<jid>/new]. *)
Definition sample_tagify (suffix : string) (prefix : kwarg (option string))
    (base : kwarg string) : string :=
  let base := match base with Default => "salt" | Given b => b end in
  let prefix := match prefix with Given (Some p) => p | _ => "" end in
  String.concat "/" (filter (λ part, part ≠ "") [base; prefix; suffix]).

(** A reconciliation that passes the call specification on as keyword
    arguments. *)
Definition sample_format_call (l_fun : callable) (low_ : gmap string pyval)
  : result f_call :=
  Return {| fc_args := None; fc_kwargs := Some low_ |}.

Definition sample_repr (s : string) : string := "'" +:+ s +:+ "'".

Definition sample_strip (s : string) : string := s.

Definition ping : callable :=
  {| call := λ _ _, Return (PyStr "pong"); __doc__ := Some "Return pong" |}.

Definition fail : callable :=
  {| call := λ _ _, Raise (ValueError "boom"); __doc__ := None |}.

Definition exit : callable :=
  {| call := λ _ _, Raise (SystemExit "1"); __doc__ := Some "Leave" |}.

Definition sample_opts : options :=
  {| sock_dir := "/var/run/salt/master"; transport := "zeromq" |}.

Definition sample_client : client_obj :=
  {| functions :=
       {[ "test.ping" := ping; "test.fail" := fail; "test.exit" := exit ]};
     client := Some "runner";
     tag_prefix := Some "run";
     opts := sample_opts |}.

Definition pkg_client : client_obj :=
  {| functions := {[ "pkgx" := ping; "pkg.install" := ping; "pkg" := ping;
                     "pkg." := ping; "apt" := ping ]};
     client := Some "wheel";
     tag_prefix := Some "wheel";
     opts := sample_opts |}.

Definition abc_client : client_obj :=
  {| functions := {[ "a" := ping; "b" := ping; "c" := ping ]};
     client := Some "runner";
     tag_prefix := Some "run";
     opts := sample_opts |}.

Definition sample_now : datetime :=
  {| year := 2014; month := 3; day := 9; hour := 7; minute := 5; second := 0;
     microsecond := 4321 |}.

Definition sample_later : datetime :=
  {| year := 2014; month := 3; day := 9; hour := 7; minute := 5; second := 0;
     microsecond := 4322 |}.

(** ** What an observer sees of a trace *)

(** The events published on the bus, in order: topic and payload. *)
Definition published (t : list action) : list (string * gmap string pyval) :=
  omap (λ a, match a with
             | FireEvent _ data tag => Some (tag, data)
             | _ => None
             end) t.

(** The event objects made and never deleted. *)
Definition open_events (t : list action) : list nat :=
  fold_left (λ evs a, match a with
                      | GetEvent ev _ _ _ => evs ++ [ev]
                      | DelEvent ev => filter (λ ev', ev' ≠ ev) evs
                      | _ => evs
                      end) t [].

(** The names [get_docs] keeps, in the order it goes through them. *)
Definition selected (self : client_obj) (arg : option string) : list string :=
  match arg with
  | None | Some "" => sorted (keys (functions self))
  | Some a =>
      filter (λ fn, fn = a ∨
                startswith fn (if negb (endswith a ".") then a +:+ "." else a)
                = true)
             (sorted (keys (functions self)))
  end.

(** The result of a computation started in a world where nothing has
    happened yet, and what it does there. *)
Definition outcome {A} (m : M A) : result A := (m []).1.
Definition actions {A} (m : M A) : list action := (m []).2.

(** [sub] occurs in [s]. *)
Definition contains (s sub : string) : Prop :=
  ∃ pre post, s = pre +:+ sub +:+ post.

(** The payload of the start event and, for each outcome of the invocation,
    the payload of the completion event, as [_proc_function] builds them. *)
Definition start_data (self : client_obj) (fn : option string) (user : pyval)
    (jid : string) : gmap string pyval :=
  {[ "fun" := PyStr (py_str (client self) +:+ "." +:+ py_str fn);
     "jid" := PyStr jid;
     "user" := user ]}.

Definition completion_data (self : client_obj) (fn : option string)
    (user : pyval) (jid : string) (r : result pyval) : gmap string pyval :=
  let data := start_data self fn user jid in
  <["user" := user]>
    match r with
    | Return v => <["success" := PyBool true]> (<["return" := v]> data)
    | Raise exc =>
        <["success" := PyBool false]>
          (<["return" := PyStr (exception_summary self fn exc)]> data)
    end.

(** [self] with another registry. *)
Definition with_functions (fs : gmap string callable) (self : client_obj)
  : client_obj :=
  {| functions := fs;
     client := client self;
     tag_prefix := tag_prefix self;
     opts := opts self |}.

(** A computation that does not look at what happened before it. *)
Definition framed {A} (m : M A) : Prop :=
  ∀ t, m t = (outcome m, t ++ actions m).

(** Every event is fired through an event object that was made and is not
    deleted yet, an event object is made once, and only a live one is
    deleted. [evs] are the event objects alive before [t]. *)
Fixpoint bus_ok (evs : list nat) (t : list action) : bool :=
  match t with
  | [] => true
  | GetEvent ev _ _ _ :: t' => bool_decide (ev ∉ evs) && bus_ok (ev :: evs) t'
  | FireEvent ev _ _ :: t' => bool_decide (ev ∈ evs) && bus_ok evs t'
  | DelEvent ev :: t' =>
      bool_decide (ev ∈ evs) && bus_ok (filter (λ ev', ev' ≠ ev) evs) t'
  | _ :: t' => bus_ok evs t'
  end.

(** The calls of registered callables in a trace, by name. *)
Definition called (t : list action) : list string :=
  omap (λ a, match a with
             | Call name _ _ => Some name
             | _ => None
             end) t.

Definition is_digit (ch : Ascii.ascii) : bool :=
  (48 <=? Ascii.N_of_ascii ch)%N && (Ascii.N_of_ascii ch <=? 57)%N.

Fixpoint all_digits (s : string) : bool :=
  match s with
  | "" => true
  | String ch s' => is_digit ch && all_digits s'
  end.

(** A reconciliation that wants the positional arguments under [arg] and
    fails without them. *)
Definition SaltInvocationError (msg : string) : exn :=
  {| exc_class_name := "SaltInvocationError";
     exc_str := msg;
     exc_is_Exception := true |}.

Definition strict_format_call (l_fun : callable) (low_ : gmap string pyval)
  : result f_call :=
  match low_ !! "arg" with
  | Some (PyList args) => Return {| fc_args := Some args; fc_kwargs := None |}
  | _ => Raise (SaltInvocationError "arg is required")
  end.

(** A client whose registry is the empty default. *)
Definition empty_client : client_obj :=
  {| functions := ∅;
     client := None;
     tag_prefix := None;
     opts := sample_opts |}.

(** An action on the bus: making, using or deleting an event object. *)
Definition touches_bus (a : action) : bool :=
  match a with
  | GetEvent _ _ _ _ | FireEvent _ _ _ | DelEvent _ => true
  | _ => false
  end.

(** * Properties *)

(** ** The order of strings *)

Lemma str_lt_of_le_ne (s1 s2 : string) :
  String.le s1 s2 → s1 ≠ s2 → str_lt s1 s2.
Proof.
  unfold String.le, String.leb, str_lt. intros Hle Hne.
  destruct (String.compare s1 s2) eqn:Hc; [|done..].
  by apply String.compare_eq_iff in Hc.
Qed.

Lemma StronglySorted_le_lt (l : list string) :
  NoDup l → StronglySorted String.le l → StronglySorted str_lt l.
Proof.
  induction 2 as [|x l Hl IH Hx]; [constructor|].
  apply NoDup_cons in H as [Hnotin Hnd].
  constructor; [by apply IH|].
  rewrite Forall_forall in Hx |- *. intros y Hy.
  apply str_lt_of_le_ne; [by apply Hx|]. intros ->. done.
Qed.

Lemma StronglySorted_filter {A} (R : relation A) (P : A → Prop)
    `{∀ x, Decision (P x)} (l : list A) :
  StronglySorted R l → StronglySorted R (filter P l).
Proof.
  induction 1 as [|x l Hl IH Hx]; [constructor|].
  rewrite filter_cons. case_decide; [|done].
  constructor; [done|]. rewrite Forall_forall in Hx |- *.
  intros y [_ Hy]%list_elem_of_filter. by apply Hx.
Qed.

Lemma sorted_Permutation (l : list string) : sorted l ≡ₚ l.
Proof. apply merge_sort_Permutation. Qed.

Lemma sorted_keys_strictly {V} (m : gmap string V) :
  StronglySorted str_lt (sorted (keys m)).
Proof.
  apply StronglySorted_le_lt.
  - rewrite sorted_Permutation. apply NoDup_fst_map_to_list.
  - apply (StronglySorted_merge_sort _).
Qed.

Lemma elem_of_sorted_keys {V} (m : gmap string V) (k : string) :
  k ∈ sorted (keys m) ↔ is_Some (m !! k).
Proof.
  rewrite sorted_Permutation. unfold keys.
  rewrite list_elem_of_fmap. split.
  - intros [[k' v] [-> Hin]]. apply elem_of_map_to_list in Hin. by exists v.
  - intros [v Hv]. exists (k, v). split; [done|].
    by apply elem_of_map_to_list.
Qed.

(** ** Dictionaries *)

Lemma dict_setitem_fresh {V} (k : string) (v : V) (d : list (string * V)) :
  k ∉ d.*1 → dict_setitem k v d = d ++ [(k, v)].
Proof.
  induction d as [|[k' v'] d IH]; simpl; [done|].
  rewrite not_elem_of_cons. intros [Hne Hnotin].
  case_decide; [congruence|]. by rewrite IH.
Qed.

Lemma dict_NoDup_aux {V} (pairs acc : list (string * V)) :
  NoDup (acc ++ pairs).*1 →
  fold_left (λ d kv, dict_setitem kv.1 kv.2 d) pairs acc = acc ++ pairs.
Proof.
  revert acc. induction pairs as [|[k v] pairs IH]; intros acc Hnd; simpl.
  - by rewrite app_nil_r.
  - rewrite dict_setitem_fresh.
    + rewrite IH; rewrite <-app_assoc; done.
    + rewrite fmap_app in Hnd. apply NoDup_app in Hnd as (_ & Hdisj & _).
      intros Hin. apply (Hdisj k Hin). simpl. left.
Qed.

(** Built from pairs whose keys are all different, a dictionary has these
    pairs, in their order. *)
Lemma dict_NoDup {V} (pairs : list (string * V)) :
  NoDup pairs.*1 → dict pairs = pairs.
Proof. intros. by apply (dict_NoDup_aux pairs []). Qed.

Lemma strip_rst_keys (docs : list (string * option string)) :
  (_strip_rst docs).*1 = docs.*1.
Proof.
  unfold _strip_rst. rewrite <-list_fmap_compose. by apply list_fmap_ext.
Qed.

Lemma docs_of_keys (self : client_obj) (names : list string) :
  (docs_of self names).*1 = names.
Proof.
  unfold docs_of. rewrite <-list_fmap_compose.
  rewrite <-(list_fmap_id names) at 2. by apply list_fmap_ext.
Qed.

(** ** get_docs *)

Lemma selected_strictly_sorted (self : client_obj) (arg : option string) :
  StronglySorted str_lt (selected self arg).
Proof.
  destruct arg as [[|c a]|]; simpl;
    [|apply StronglySorted_filter|]; apply sorted_keys_strictly.
Qed.

Lemma selected_NoDup (self : client_obj) (arg : option string) :
  NoDup (selected self arg).
Proof.
  assert (NoDup (sorted (keys (functions self)))) as Hnd.
  { rewrite sorted_Permutation. apply NoDup_fst_map_to_list. }
  destruct arg as [[|c a]|]; simpl; [done| |done]. by apply NoDup_filter.
Qed.

Lemma get_docs_selected (self : client_obj) (arg : option string) :
  get_docs self arg = _strip_rst (docs_of self (selected self arg)).
Proof.
  assert (∀ names, NoDup names →
            dict (docs_of self names) = docs_of self names) as Hdict.
  { intros names Hnd. apply dict_NoDup. by rewrite docs_of_keys. }
  pose proof (selected_NoDup self arg) as Hnd.
  unfold get_docs. destruct arg as [[|c a]|]; simpl in *; by rewrite Hdict.
Qed.

Lemma get_docs_keys (self : client_obj) (arg : option string) :
  (get_docs self arg).*1 = selected self arg.
Proof. by rewrite get_docs_selected, strip_rst_keys, docs_of_keys. Qed.

Lemma elem_of_get_docs (self : client_obj) (arg : option string)
    (name : string) (doc : option string) :
  (name, doc) ∈ get_docs self arg ↔
  name ∈ selected self arg ∧
  doc = strip_doc (from_option __doc__ None (functions self !! name)).
Proof.
  rewrite get_docs_selected. unfold _strip_rst, docs_of.
  rewrite <-list_fmap_compose, list_elem_of_fmap. simpl. split.
  - intros (fn & [= -> ->] & Hin). done.
  - intros [Hin ->]. by exists name.
Qed.

Lemma startswith_length (s p : string) :
  startswith s p = true → String.length p ≤ String.length s.
Proof.
  unfold startswith. revert s.
  induction p as [|c p IH]; intros [|c' s]; simpl; try (done || lia).
  destruct (Ascii.ascii_dec c c'); [|done]. intros ?%IH. lia.
Qed.

Lemma string_length_app (s1 s2 : string) :
  String.length (s1 +:+ s2) = String.length s1 + String.length s2.
Proof. induction s1; simpl; [done|]. by rewrite IHs1. Qed.

Lemma string_app_assoc (s1 s2 s3 : string) :
  (s1 +:+ s2) +:+ s3 = s1 +:+ s2 +:+ s3.
Proof.
  induction s1 as [|c s1 IH]; [done|].
  change (String c ((s1 +:+ s2) +:+ s3) = String c (s1 +:+ s2 +:+ s3)).
  by rewrite IH.
Qed.

Lemma app_ne_self (s tail : string) : tail ≠ "" → s ≠ s +:+ tail.
Proof.
  intros Hne Heq. apply (f_equal String.length) in Heq.
  rewrite string_length_app in Heq. destruct tail; [done|]. simpl in Heq. lia.
Qed.

Lemma not_startswith_longer (s tail : string) :
  tail ≠ "" → startswith s (s +:+ tail) = false.
Proof.
  intros Hne. destruct (startswith s (s +:+ tail)) eqn:Hs; [|done].
  apply startswith_length in Hs. rewrite string_length_app in Hs.
  destruct tail; [done|]. simpl in Hs. lia.
Qed.

Lemma startswith_app (p rest : string) : startswith (p +:+ rest) p = true.
Proof.
  unfold startswith. induction p as [|c p IH]; simpl.
  - by destruct rest.
  - destruct (Ascii.ascii_dec c c); [done|congruence].
Qed.

Lemma startswith_app_inv (s p : string) :
  startswith s p = true → ∃ rest, s = p +:+ rest.
Proof.
  unfold startswith. revert s.
  induction p as [|c p IH]; intros [|c' s]; simpl; try done.
  - by exists "".
  - intros _. by exists (String c' s).
  - destruct (Ascii.ascii_dec c c') as [->|]; [|done].
    intros [rest ->]%IH. by exists rest.
Qed.

(** C6, amended. For every registry, [get_docs()] builds its result from the
    function names in strictly increasing lexicographic order, whatever the
    order of registration: the entries are inserted in that order, one for
    each key of the registry. The order in which the result, a dictionary,
    gives its names back is another matter: it is the order of its hash
    table. *)
Theorem get_docs_names_sorted (self : client_obj) :
  StronglySorted str_lt (get_docs self None).*1 ∧
  (get_docs self None).*1 ≡ₚ keys (functions self).
Proof.
  rewrite get_docs_keys. split.
  - apply selected_strictly_sorted.
  - apply sorted_Permutation.
Qed.

(** C8, amended. For every registry and every non-empty argument [p] that
    does not end in a dot, [get_docs(p)] has exactly the documentation entries
    of the registered names equal to [p] or starting with [p] and a dot, each
    once. So [p] itself is in when registered, every registered name that
    starts with [p] and a dot is in, and [p] followed by [x] is out. *)
Theorem get_docs_prefix (self : client_obj) (p : string) :
  p ≠ "" → endswith p "." = false →
  NoDup (get_docs self (Some p)).*1 ∧
  (∀ name doc,
     (name, doc) ∈ get_docs self (Some p) ↔
     ∃ f, functions self !! name = Some f ∧ doc = strip_doc (__doc__ f) ∧
          (name = p ∨ startswith name (p +:+ ".") = true)) ∧
  (is_Some (functions self !! p) → p ∈ (get_docs self (Some p)).*1) ∧
  (∀ rest, is_Some (functions self !! (p +:+ "." +:+ rest)) →
           p +:+ "." +:+ rest ∈ (get_docs self (Some p)).*1) ∧
  p +:+ "x" ∉ (get_docs self (Some p)).*1.
Proof.
  intros Hp Hdot.
  assert (∀ name, name ∈ selected self (Some p) ↔
            is_Some (functions self !! name) ∧
            (name = p ∨ startswith name (p +:+ ".") = true)) as Hsel.
  { intros name. destruct p as [|c p]; [done|].
    unfold selected. rewrite Hdot. simpl negb. cbv iota.
    rewrite list_elem_of_filter, elem_of_sorted_keys.
    split; intros [? ?]; by split. }
  split_and!.
  - rewrite get_docs_keys. apply selected_NoDup.
  - intros name doc. rewrite elem_of_get_docs, Hsel. split.
    + intros [[[f Hf] Hname] ->]. exists f. by rewrite Hf.
    + intros (f & Hf & -> & Hname). rewrite Hf. eauto.
  - intros Hreg. rewrite get_docs_keys. apply Hsel. auto.
  - intros rest Hreg. rewrite get_docs_keys. apply Hsel. split; [done|].
    right. rewrite <-string_app_assoc. apply startswith_app.
  - rewrite get_docs_keys, Hsel. intros [_ [Heq|Hstart]].
    + by apply (app_ne_self p "x").
    + apply startswith_app_inv in Hstart as [rest Hrest].
      rewrite string_app_assoc in Hrest.
      apply (inj (String.app p)) in Hrest. done.
Qed.

(** C10. For every argument [p] that ends with a dot, [get_docs(p)] has
    exactly the entries of the registered names equal to [p] or starting with
    [p], each once. So when [p] is [q] and a dot, the bare name [q] is out,
    whereas [get_docs(q)] has [q] when it is registered. *)
Theorem get_docs_dotted (self : client_obj) (p : string) :
  endswith p "." = true →
  NoDup (get_docs self (Some p)).*1 ∧
  (∀ name doc,
     (name, doc) ∈ get_docs self (Some p) ↔
     ∃ f, functions self !! name = Some f ∧ doc = strip_doc (__doc__ f) ∧
          (name = p ∨ startswith name p = true)) ∧
  (∀ q, p = q +:+ "." →
        (q ∉ (get_docs self (Some p)).*1) ∧
        (is_Some (functions self !! q) → q ∈ (get_docs self (Some q)).*1)).
Proof.
  intros Hdot.
  assert (∀ name, name ∈ selected self (Some p) ↔
            is_Some (functions self !! name) ∧
            (name = p ∨ startswith name p = true)) as Hsel.
  { intros name. destruct p as [|c p]; [done|].
    unfold selected. rewrite Hdot. simpl negb. cbv iota.
    rewrite list_elem_of_filter, elem_of_sorted_keys.
    split; intros [? ?]; by split. }
  split_and!.
  - rewrite get_docs_keys. apply selected_NoDup.
  - intros name doc. rewrite elem_of_get_docs, Hsel. split.
    + intros [[[f Hf] Hname] ->]. exists f. by rewrite Hf.
    + intros (f & Hf & -> & Hname). rewrite Hf. eauto.
  - intros q ->. split.
    + rewrite get_docs_keys, Hsel. intros [_ [Heq|Hstart]].
      * by apply (app_ne_self q ".").
      * by rewrite not_startswith_longer in Hstart.
    + intros Hreg. rewrite get_docs_keys.
      destruct q as [|c q]; simpl.
      * by apply elem_of_sorted_keys.
      * apply list_elem_of_filter. split; [by left|].
        by apply elem_of_sorted_keys.
Qed.

(** ** _verify_fun and low *)

Lemma verify_fun_trace (self : client_obj) (fn : option string)
    (t : list action) :
  (_verify_fun self fn t).2 = t.
Proof.
  destruct fn as [[|c name]|]; simpl; [done| |done]. by case_decide.
Qed.

(** C3. [_verify_fun(f)] returns without error exactly when [f] is a
    non-empty name that is a key of the registry; it fails with the error
    that no function was specified when [f] is [None] or empty, and with the
    error that the function is unavailable when [f] is non-empty and not
    registered; it does nothing to the world. *)
Theorem verify_fun_spec (self : client_obj) (fn : option string)
    (t : list action) :
  (_verify_fun self fn t).2 = t ∧
  ((_verify_fun self fn t).1 = Return tt ↔
   ∃ name, fn = Some name ∧ name ≠ "" ∧ name ∈ dom (functions self)) ∧
  (fn = None ∨ fn = Some "" →
   (_verify_fun self fn t).1 =
     Raise (CommandExecutionError "Must specify a function to run")) ∧
  (∀ name, fn = Some name → name ≠ "" → name ∉ dom (functions self) →
   (_verify_fun self fn t).1 =
     Raise (CommandExecutionError
              ("Function " +:+ py_repr name +:+ " is unavailable"))).
Proof.
  destruct fn as [[|c name]|]; simpl.
  - split_and!; [done| |done|by intros ? [= <-]].
    split; [done|]. by intros (? & [= <-] & ? & _).
  - destruct (decide (String c name ∉ dom (functions self))) as [Hout|Hin];
      simpl.
    + split_and!; [done| |by intros [|]|by intros ? [= <-]].
      split; [done|]. by intros (? & [= <-] & _ & ?).
    + apply dec_stable in Hin.
      split_and!; [done| |by intros [|]|by intros ? [= <-]].
      split; [|done]. intros _. by exists (String c name).
  - split_and!; [done| |done|done].
    split; [done|]. by intros (? & ? & _).
Qed.

(** C4. For a registered function and a call specification that
    [format_call] reconciles with it, [low] verifies the name first: a
    failure of the verification is the failure of [low], unchanged, and
    nothing is called; after a verification that passes, [low] calls the
    registered callable on the reconciled arguments and its outcome is the
    callable's, the value it returns or the exception it raises. *)
Theorem low_spec (self : client_obj) (name : string) (l_fun : callable)
    (c : gmap string pyval) (fc : f_call) (t : list action) :
  functions self !! name = Some l_fun →
  format_call l_fun c = Return fc →
  match (_verify_fun self (Some name) t).1 with
  | Raise e => low self (Some name) c t = (Raise e, t)
  | Return _ =>
      name ≠ "" ∧
      low self (Some name) c t =
        (call l_fun (default [] (fc_args fc)) (default ∅ (fc_kwargs fc)),
         t ++ [Call name (default [] (fc_args fc))
                         (default ∅ (fc_kwargs fc))])
  end ∧
  (∀ fn' c' e, (_verify_fun self fn' t).1 = Raise e →
               low self fn' c' t = (Raise e, t)).
Proof.
  intros Hreg Hfc. split.
  - unfold low, bind.
    destruct name as [|ch name]; simpl; [done|].
    destruct (decide (String ch name ∉ dom (functions self))) as [Hout|_].
    { exfalso. apply Hout, elem_of_dom. eauto. }
    simpl. split; [done|].
    unfold getitem_functions. simpl. rewrite Hreg. simpl.
    rewrite Hfc. by destruct (call l_fun _ _).
  - intros fn' c' e. unfold low, bind.
    pose proof (verify_fun_trace self fn' t) as Ht.
    destruct (_verify_fun self fn' t) as [[[]|e'] t']; simpl in *; [done|].
    by intros [= ->]; subst.
Qed.

(** ** Computations that only add to the trace *)

Lemma framed_ret {A} (a : A) : framed (ret a).
Proof. intros t. unfold outcome, actions, ret. simpl. by rewrite app_nil_r. Qed.

Lemma framed_raise {A} (e : exn) : framed (@raise A e).
Proof. intros t. unfold outcome, actions, raise. simpl. by rewrite app_nil_r. Qed.

Lemma framed_lift {A} (r : result A) : framed (lift r).
Proof. intros t. unfold outcome, actions, lift. simpl. by rewrite app_nil_r. Qed.

Lemma framed_emit (a : action) : framed (emit a).
Proof. intros t. done. Qed.

Lemma framed_bind {A B} (m : M A) (k : A → M B) :
  framed m → (∀ a, framed (k a)) → framed (bind m k).
Proof.
  intros Hm Hk t. unfold outcome, actions, bind.
  rewrite (Hm t), (Hm []). simpl.
  destruct (outcome m) as [a|e]; simpl; [|done].
  rewrite (Hk a (t ++ actions m)), (Hk a (actions m)). simpl.
  by rewrite app_assoc.
Qed.

Lemma framed_verify_fun (self : client_obj) (fn : option string) :
  framed (_verify_fun self fn).
Proof.
  destruct fn as [[|c name]|]; simpl; try apply framed_raise.
  case_decide; [apply framed_raise|apply framed_ret].
Qed.

Lemma framed_low (self : client_obj) (fn : option string)
    (c : gmap string pyval) :
  framed (low self fn c).
Proof.
  unfold low. apply framed_bind; [apply framed_verify_fun|]. intros _.
  apply framed_bind.
  { unfold getitem_functions.
    destruct (fn ≫= _); [apply framed_ret|apply framed_raise]. }
  intros l_fun. apply framed_bind; [apply framed_lift|]. intros fc.
  apply framed_bind; [|intros; apply framed_ret].
  unfold invoke. apply framed_bind; [apply framed_emit|].
  intros _. apply framed_lift.
Qed.

(** [low] does one thing at most to the world: it calls the callable. *)
Lemma actions_low (self : client_obj) (fn : option string)
    (c : gmap string pyval) :
  actions (low self fn c) = [] ∨
  ∃ name args kwargs, actions (low self fn c) = [Call name args kwargs].
Proof.
  unfold actions, low, bind.
  pose proof (framed_verify_fun self fn []) as Hv. rewrite Hv.
  assert (actions (_verify_fun self fn) = []) as ->.
  { unfold actions. by rewrite verify_fun_trace. }
  destruct (outcome (_verify_fun self fn)); simpl; [|by left].
  unfold getitem_functions.
  destruct (fn ≫= _) as [l_fun|]; simpl; [|by left].
  destruct (format_call l_fun c) as [fc|]; simpl; [|by left].
  right. eexists _, _, _. by destruct (call l_fun _ _).
Qed.

Lemma published_app (t1 t2 : list action) :
  published (t1 ++ t2) = published t1 ++ published t2.
Proof. apply omap_app. Qed.

Lemma published_low (self : client_obj) (fn : option string)
    (c : gmap string pyval) :
  published (actions (low self fn c)) = [].
Proof.
  destruct (actions_low self fn c) as [->|(? & ? & ? & ->)]; done.
Qed.

(** ** _proc_function, step by step *)

Lemma proc_function_run (self : client_obj) (fn : option string)
    (c : gmap string pyval) (user : pyval) (tag jid : string) (fe : bool)
    (t : list action) :
  let ev := S (length t) in
  let r := outcome (low self fn c) in
  let started :=
    t ++ [Daemonize] ++
    (if fe then
       [GetEvent ev "master" (opts self) false;
        FireEvent ev (start_data self fn user jid)
                  (tagify "new" Default (Given tag))]
     else []) ++
    actions (low self fn c) in
  let finished :=
    started ++
    (if fe then
       [FireEvent ev (completion_data self fn user jid r)
                  (tagify "ret" Default (Given tag));
        DelEvent ev]
     else []) in
  _proc_function self fn c user tag jid fe t =
    match r with
    | Return _ => (Return tt, finished)
    | Raise e =>
        if exc_is_Exception e then (Return tt, finished)
        else (Raise e, started ++ (if fe then [DelEvent ev] else []))
    end.
Proof.
  intros ev r started finished. subst ev r started finished.
  unfold _proc_function, completion_data, start_data.
  unfold frame_of, drop_frame, bind, try_except_Exception, get_event,
    fire_event, del_event, emit, ret, raise.
  destruct fe; simpl.
  - rewrite length_app. simpl length. rewrite Nat.add_1_r.
    rewrite (framed_low self fn c).
    destruct (outcome (low self fn c)) as [v|e]; simpl.
    + by rewrite <-!app_assoc.
    + destruct (exc_is_Exception e); simpl; by rewrite <-!app_assoc.
  - rewrite (framed_low self fn c).
    destruct (outcome (low self fn c)) as [v|e]; simpl.
    + by rewrite app_nil_r, <-!app_assoc.
    + destruct (exc_is_Exception e); simpl;
        by rewrite app_nil_r, <-!app_assoc.
Qed.

Lemma string_app_nil_r (s : string) : s +:+ "" = s.
Proof.
  induction s as [|ch s IH]; [done|].
  change (String ch (s +:+ "") = String ch s). by rewrite IH.
Qed.

Lemma exception_summary_nonempty (self : client_obj) (fn : option string)
    (e : exn) :
  exception_summary self fn e ≠ "".
Proof. unfold exception_summary. intros Heq. discriminate Heq. Qed.

Lemma exception_summary_contains (self : client_obj) (fn : option string)
    (e : exn) :
  contains (exception_summary self fn e) (py_str (client self)) ∧
  contains (exception_summary self fn e) (py_str fn) ∧
  contains (exception_summary self fn e) (exc_class_name e) ∧
  contains (exception_summary self fn e) (exc_str e).
Proof.
  unfold exception_summary, contains. split_and!.
  - exists "Exception occurred in ",
      (" " +:+ py_str fn +:+ ": " +:+ exc_class_name e +:+ ": " +:+ exc_str e).
    done.
  - exists ("Exception occurred in " +:+ py_str (client self) +:+ " "),
      (": " +:+ exc_class_name e +:+ ": " +:+ exc_str e).
    by rewrite 2!string_app_assoc.
  - exists ("Exception occurred in " +:+ py_str (client self) +:+ " "
              +:+ py_str fn +:+ ": "),
      (": " +:+ exc_str e).
    by rewrite 4!string_app_assoc.
  - exists ("Exception occurred in " +:+ py_str (client self) +:+ " "
              +:+ py_str fn +:+ ": " +:+ exc_class_name e +:+ ": "), "".
    by rewrite 6!string_app_assoc, string_app_nil_r.
Qed.

(** ** The worker *)

(** X8. An exception that is not an [Exception] goes through
    [_proc_function]: the run ends with the invocation, having published the
    start event only, or nothing without [fire_event]. *)
Lemma proc_function_propagates (self : client_obj) (fn : option string)
    (c : gmap string pyval) (user : pyval) (tag jid : string) (fe : bool)
    (t : list action) (e : exn) :
  outcome (low self fn c) = Raise e →
  exc_is_Exception e = false →
  (_proc_function self fn c user tag jid fe t).1 = Raise e ∧
  published (_proc_function self fn c user tag jid fe t).2 =
    published t ++
    (if fe then [(tagify "new" Default (Given tag),
                  start_data self fn user jid)] else []).
Proof.
  intros Hraise Hexc. rewrite proc_function_run. cbv zeta.
  rewrite Hraise, Hexc. split; [done|]. unfold snd.
  rewrite !published_app, published_low. destruct fe; simpl;
    by rewrite ?app_nil_r.
Qed.

(** C1, amended. For every run of [_proc_function] in which the invocation
    raises an exception whose class derives from [Exception], the exception
    stays inside the worker: the run ends normally. With [fire_event], the
    last event published is the completion event, and its payload has
    [success] false and as [return] the summary, a non-empty text in which
    the client kind, the function name, the name of the exception's class and
    the exception's message occur. *)
Theorem proc_function_contains_Exception (self : client_obj)
    (fn : option string) (c : gmap string pyval) (user : pyval)
    (tag jid : string) (fe : bool) (t : list action) (e : exn) :
  outcome (low self fn c) = Raise e →
  exc_is_Exception e = true →
  (_proc_function self fn c user tag jid fe t).1 = Return tt ∧
  (fe = true →
   ∃ data,
     last (published (_proc_function self fn c user tag jid fe t).2) =
       Some (tagify "ret" Default (Given tag), data) ∧
     data !! "success" = Some (PyBool false) ∧
     data !! "return" = Some (PyStr (exception_summary self fn e))) ∧
  exception_summary self fn e ≠ "" ∧
  contains (exception_summary self fn e) (py_str (client self)) ∧
  contains (exception_summary self fn e) (py_str fn) ∧
  contains (exception_summary self fn e) (exc_class_name e) ∧
  contains (exception_summary self fn e) (exc_str e).
Proof.
  intros Hraise Hexc. rewrite proc_function_run. cbv zeta.
  rewrite Hraise, Hexc. simpl.
  split; [done|]. split; [|split].
  - intros ->. eexists. split_and!.
    + rewrite !published_app. simpl. by rewrite last_snoc.
    + unfold completion_data. by simplify_map_eq.
    + unfold completion_data. by simplify_map_eq.
  - apply exception_summary_nonempty.
  - apply exception_summary_contains.
Qed.

(** C2, amended. For every run of [_proc_function] with [fire_event] in which
    the invocation returns, or raises an exception whose class derives from
    [Exception], the worker publishes exactly two events: the start event, on
    the topic made of the tag and [new], before anything the invocation does,
    and the completion event, on the topic made of the tag and [ret], after
    everything the invocation does; both payloads carry the job id. Without
    [fire_event] the run publishes nothing, whatever the invocation does. *)
Theorem proc_function_events (self : client_obj) (fn : option string)
    (c : gmap string pyval) (user : pyval) (tag jid : string)
    (t : list action) :
  ((∀ e, outcome (low self fn c) = Raise e → exc_is_Exception e = true) →
   ∃ ev data_new data_ret,
     _proc_function self fn c user tag jid true t =
       (Return tt,
        t ++ [Daemonize; GetEvent ev "master" (opts self) false;
              FireEvent ev data_new (tagify "new" Default (Given tag))]
          ++ actions (low self fn c)
          ++ [FireEvent ev data_ret (tagify "ret" Default (Given tag));
              DelEvent ev]) ∧
     published (actions (low self fn c)) = [] ∧
     published (_proc_function self fn c user tag jid true t).2 =
       published t ++ [(tagify "new" Default (Given tag), data_new);
                       (tagify "ret" Default (Given tag), data_ret)] ∧
     data_new !! "jid" = Some (PyStr jid) ∧
     data_ret !! "jid" = Some (PyStr jid)) ∧
  published (_proc_function self fn c user tag jid false t).2 = published t.
Proof.
  rewrite !proc_function_run. cbv zeta. split.
  - intros Hexc.
    exists (S (length t)), (start_data self fn user jid),
      (completion_data self fn user jid (outcome (low self fn c))).
    assert (∀ started finished : list action,
      match outcome (low self fn c) with
      | Return _ => (Return (), finished)
      | Raise e => if exc_is_Exception e then (Return (), finished)
                   else (Raise e, started)
      end = (Return (), finished)) as ->.
    { intros started finished.
      destruct (outcome (low self fn c)) as [|e] eqn:Ho; [done|].
      by rewrite (Hexc e). }
    split_and!.
    + by rewrite <-!app_assoc.
    + apply published_low.
    + unfold snd. rewrite !published_app, published_low. simpl.
      by rewrite <-app_assoc.
    + unfold start_data. by simplify_map_eq.
    + unfold completion_data, start_data.
      destruct (outcome (low self fn c)); by simplify_map_eq.
  - assert (published (t ++ [Daemonize] ++ [] ++ actions (low self fn c))
            = published t) as Hp.
    { rewrite !published_app, published_low. simpl. by rewrite app_nil_r. }
    destruct (outcome (low self fn c)) as [v|e]; simpl.
    + by rewrite app_nil_r.
    + destruct (exc_is_Exception e); simpl; by rewrite app_nil_r.
Qed.


(** ** async *)

(** C9. [async] never looks at the registry and never raises, whatever the
    function name: it starts the worker and returns the dictionary of the tag
    and the job id, the same in front of any registry. The name is verified
    in the worker only: when the verification fails there, the worker running
    with [fire_event] calls nothing, ends normally and publishes the start
    event and then a completion event with [success] false that tells the
    verification error. *)
Theorem async_does_not_verify (self : client_obj) (now : datetime)
    (fn : option string) (c : gmap string pyval) (user : pyval) (fe : bool)
    (t : list action) :
  async self now fn c user fe t =
    (Return {[ "tag" := PyStr (tagify (format_jid now)
                                      (Given (tag_prefix self)) Default);
               "jid" := PyStr (format_jid now) ]},
     t ++ [ProcStart fn c user
             (tagify (format_jid now) (Given (tag_prefix self)) Default)
             (format_jid now) fe]) ∧
  (∀ fs, async (with_functions fs self) now fn c user fe t =
         async self now fn c user fe t) ∧
  (∀ e tag jid,
     outcome (_verify_fun self fn) = Raise e →
     ∃ data,
       proc_run self (ProcStart fn c user tag jid true) =
         Some (Return tt,
               [Daemonize; GetEvent 1 "master" (opts self) false;
                FireEvent 1 (start_data self fn user jid)
                          (tagify "new" Default (Given tag));
                FireEvent 1 data (tagify "ret" Default (Given tag));
                DelEvent 1]) ∧
       data !! "success" = Some (PyBool false) ∧
       data !! "return" = Some (PyStr (exception_summary self fn e)) ∧
       data !! "jid" = Some (PyStr jid)).
Proof.
  split_and!.
  - done.
  - done.
  - intros e tag jid Hverify.
    assert (low self fn c [] = (Raise e, [])) as Hlow.
    { unfold low, bind. rewrite (framed_verify_fun self fn []), Hverify.
      unfold actions. by rewrite verify_fun_trace. }
    assert (exc_is_Exception e = true) as Hexc.
    { revert Hverify. unfold outcome.
      destruct fn as [[|ch name]|]; simpl; try by intros [= <-].
      case_decide; [by intros [= <-]|done]. }
    exists (completion_data self fn user jid (Raise e)). split_and!.
    + unfold proc_run. rewrite proc_function_run. cbv zeta.
      unfold outcome, actions. rewrite Hlow. simpl. by rewrite Hexc.
    + unfold completion_data. by simplify_map_eq.
    + unfold completion_data. by simplify_map_eq.
    + unfold completion_data, start_data. by simplify_map_eq.
Qed.

(** ** Job ids *)

Lemma digit_compare (a b : N) :
  Ascii.compare (digit a) (digit b) = (a mod 10 ?= b mod 10)%N.
Proof.
  unfold Ascii.compare, digit.
  assert (a mod 10 < 10)%N by (apply N.mod_lt; lia).
  assert (b mod 10 < 10)%N by (apply N.mod_lt; lia).
  rewrite !Ascii.N_ascii_embedding by lia.
  destruct (N.compare_spec (a mod 10) (b mod 10)) as [->|Hlt|Hgt].
  - apply N.compare_refl.
  - apply N.compare_lt_iff. lia.
  - apply N.compare_gt_iff. lia.
Qed.

Lemma div_lt_inv (x y p : N) : (x / p < y / p)%N → (x < y)%N.
Proof.
  intros Hlt. apply N.lt_nge. intros Hle.
  apply (N.Div0.div_le_mono _ _ p) in Hle. lia.
Qed.

(** Two numbers written with [w] digits, that agree above these digits,
    compare as their digits do from the left. *)
Lemma zero_padded_compare (w : nat) (x y : N) (s1 s2 : string) :
  (x / 10 ^ N.of_nat w = y / 10 ^ N.of_nat w)%N →
  String.compare (zero_padded w x +:+ s1) (zero_padded w y +:+ s2) =
  match (x ?= y)%N with
  | Eq => String.compare s1 s2
  | r => r
  end.
Proof.
  revert x y. induction w as [|w IH]; intros x y Hhigh.
  - simpl in Hhigh. rewrite !N.div_1_r in Hhigh. subst y.
    by rewrite N.compare_refl.
  - cbn [zero_padded].
    change (String.compare
              (String (digit (x / 10 ^ N.of_nat w)) (zero_padded w x +:+ s1))
              (String (digit (y / 10 ^ N.of_nat w)) (zero_padded w y +:+ s2))
            = match (x ?= y)%N with Eq => String.compare s1 s2 | r => r end).
    cbn [String.compare]. rewrite digit_compare.
    rewrite Nat2N.inj_succ, N.pow_succ_r', N.mul_comm in Hhigh.
    rewrite <-!N.Div0.div_div in Hhigh.
    pose proof (N.div_mod (x / 10 ^ N.of_nat w) 10) as Hx.
    pose proof (N.div_mod (y / 10 ^ N.of_nat w) 10) as Hy.
    destruct (N.compare_spec ((x / 10 ^ N.of_nat w) mod 10)
                             ((y / 10 ^ N.of_nat w) mod 10)) as [Heq|Hlt|Hgt].
    + apply IH. lia.
    + assert (x < y)%N as ->%N.compare_lt_iff; [|done].
      apply (div_lt_inv _ _ (10 ^ N.of_nat w)). lia.
    + assert (y < x)%N as ->%N.compare_gt_iff; [|done].
      apply (div_lt_inv _ _ (10 ^ N.of_nat w)). lia.
Qed.

Lemma zero_padded_compare_small (w : nat) (x y : N) (s1 s2 : string) :
  (x < 10 ^ N.of_nat w)%N → (y < 10 ^ N.of_nat w)%N →
  String.compare (zero_padded w x +:+ s1) (zero_padded w y +:+ s2) =
  match (x ?= y)%N with
  | Eq => String.compare s1 s2
  | r => r
  end.
Proof.
  intros Hx Hy. apply zero_padded_compare. by rewrite !N.div_small.
Qed.

(** On clock readings, the job ids compare as the readings do. *)
Lemma format_jid_compare (a b : datetime) :
  valid_datetime a → valid_datetime b →
  String.compare (format_jid a) (format_jid b) = datetime_compare a b.
Proof.
  intros (Hy & Hm & Hd & HH & HM & HS & Hus) (Hy' & Hm' & Hd' & HH' & HM' & HS' & Hus').
  unfold format_jid, datetime_compare.
  rewrite <-(string_app_nil_r (zero_padded 6 (microsecond a))).
  rewrite <-(string_app_nil_r (zero_padded 6 (microsecond b))).
  rewrite !zero_padded_compare_small
    by (change (10 ^ N.of_nat 2)%N with 100%N;
        change (10 ^ N.of_nat 4)%N with 10000%N;
        change (10 ^ N.of_nat 6)%N with 1000000%N; lia).
  simpl String.compare.
  repeat match goal with |- context [(?x ?= ?y)%N] =>
    destruct (x ?= y)%N; try done end.
Qed.

(** C5. For any two calls of [async] by the same client, the job ids compare
    as the clock readings the calls observed: a call that observes a strictly
    later reading gets a strictly greater job id, and two calls whose
    readings are the same, to the microsecond, get the same job id. *)
Theorem async_jid_monotone (self : client_obj) (now1 now2 : datetime)
    (fn1 fn2 : option string) (c1 c2 : gmap string pyval)
    (user1 user2 : pyval) (fe1 fe2 : bool) (t1 t2 : list action) :
  valid_datetime now1 → valid_datetime now2 →
  ∃ d1 d2 jid1 jid2,
    (async self now1 fn1 c1 user1 fe1 t1).1 = Return d1 ∧
    (async self now2 fn2 c2 user2 fe2 t2).1 = Return d2 ∧
    d1 !! "jid" = Some (PyStr jid1) ∧
    d2 !! "jid" = Some (PyStr jid2) ∧
    String.compare jid1 jid2 = datetime_compare now1 now2 ∧
    (datetime_lt now1 now2 → str_lt jid1 jid2) ∧
    (now1 = now2 → jid1 = jid2).
Proof.
  intros Hv1 Hv2. eexists _, _, (format_jid now1), (format_jid now2).
  split_and!.
  - done.
  - done.
  - by simplify_map_eq.
  - by simplify_map_eq.
  - by apply format_jid_compare.
  - unfold datetime_lt, str_lt. by rewrite format_jid_compare.
  - by intros ->.
Qed.

(** * Further properties of the two mixins *)

(** ** get_docs, all arguments *)

Lemma filter_fmap_fst {A B} (g : A → B) (P : A → Prop)
    `{∀ x, Decision (P x)} `{∀ kv : A * B, Decision (P kv.1)} (l : list A) :
  filter (λ kv : A * B, P kv.1) ((λ x, (x, g x)) <$> l)
  = (λ x, (x, g x)) <$> filter P l.
Proof.
  induction l as [|x l IH]; [done|].
  rewrite fmap_cons, !filter_cons. simpl.
  repeat case_decide; try done; by rewrite IH.
Qed.

Lemma substring_tail (p tail : string) :
  String.substring (String.length p) (String.length tail) (p +:+ tail) = tail.
Proof.
  induction p as [|ch p IH]; [|done].
  change ("" +:+ tail) with tail. simpl String.length.
  induction tail as [|ch tail IHt]; [done|].
  simpl. by rewrite IHt.
Qed.

Lemma endswith_app (p tail : string) : endswith (p +:+ tail) tail = true.
Proof.
  unfold endswith. rewrite string_length_app.
  rewrite bool_decide_eq_true_2 by lia.
  replace (String.length p + String.length tail - String.length tail)
    with (String.length p) by lia.
  rewrite substring_tail. apply String.eqb_refl.
Qed.

Lemma get_docs_fmap (self : client_obj) (arg : option string) :
  get_docs self arg =
    (λ fn, (fn, strip_doc (from_option __doc__ None (functions self !! fn))))
      <$> selected self arg.
Proof.
  rewrite get_docs_selected. unfold _strip_rst, docs_of.
  by rewrite <-list_fmap_compose.
Qed.

(** X1. An empty argument is no argument: [get_docs('')] is [get_docs()],
    and both hold exactly one entry for each registered name, with the
    documentation of its callable. *)
Theorem get_docs_all (self : client_obj) :
  get_docs self (Some "") = get_docs self None ∧
  NoDup (get_docs self None).*1 ∧
  (∀ name doc,
     (name, doc) ∈ get_docs self None ↔
     ∃ f, functions self !! name = Some f ∧ doc = strip_doc (__doc__ f)).
Proof.
  split_and!.
  - done.
  - rewrite get_docs_keys. apply selected_NoDup.
  - intros name doc. rewrite elem_of_get_docs. simpl selected.
    rewrite elem_of_sorted_keys. split.
    + intros [[f Hf] ->]. exists f. by rewrite Hf.
    + intros (f & Hf & ->). rewrite Hf. eauto.
Qed.

(** X2. An argument only takes entries away: whatever the argument, every
    entry of [get_docs(arg)] is an entry of [get_docs()], with the same
    documentation, and no name has two entries. *)
Theorem get_docs_restricts (self : client_obj) (arg : option string) :
  NoDup (get_docs self arg).*1 ∧
  (∀ name doc, (name, doc) ∈ get_docs self arg →
               (name, doc) ∈ get_docs self None).
Proof.
  assert (selected self arg `sublist_of` selected self None) as Hsub.
  { destruct arg as [[|ch a]|]; simpl; [done| |done]. apply sublist_filter. }
  split.
  - rewrite get_docs_keys. apply selected_NoDup.
  - intros name doc. rewrite !elem_of_get_docs. intros [Hin ->].
    split; [|done]. by eapply elem_of_sublist.
Qed.

(** X3. For a non-empty argument [p] that does not end in a dot,
    [get_docs(p + '.')] is [get_docs(p)] without the entry of the bare name
    [p]: the dot drops that entry and no other. *)
Theorem get_docs_dot_drops_bare_name (self : client_obj) (p : string) :
  p ≠ "" → endswith p "." = false →
  get_docs self (Some (p +:+ ".")) =
    filter (λ kv, kv.1 ≠ p) (get_docs self (Some p)).
Proof.
  intros Hp Hdot. rewrite !get_docs_fmap.
  trans ((λ fn, (fn, strip_doc (from_option __doc__ None
                                               (functions self !! fn))))
           <$> filter (λ fn, fn ≠ p) (selected self (Some p)));
    [|symmetry; apply (filter_fmap_fst _ (λ fn, fn ≠ p))].
  f_equal.
  destruct p as [|ch p]; [done|].
  change (String ch p +:+ ".") with (String ch (p +:+ ".")).
  unfold selected. rewrite Hdot.
  change (String ch (p +:+ ".")) with (String ch p +:+ ".").
  rewrite endswith_app. simpl negb. cbv iota.
  rewrite list_filter_filter. apply list_filter_iff. intros fn. split.
  - intros [->|Hstart].
    + split; [|right; rewrite <-(string_app_nil_r (_ +:+ ".")) at 1;
                apply startswith_app].
      intros Heq. by apply (app_ne_self (String ch p) ".").
    + split; [|by right]. intros ->.
      by rewrite not_startswith_longer in Hstart.
  - intros [Hne [Heq|Hstart]]; [done|by right].
Qed.

(** ** low, failures and effects *)

(** X4. When the name is registered and not empty but [format_call] fails to
    reconcile the call specification, [low] fails with the failure of
    [format_call], and the callable is not called. *)
Theorem low_format_call_failure (self : client_obj) (name : string)
    (l_fun : callable) (c : gmap string pyval) (e : exn) (t : list action) :
  name ≠ "" →
  functions self !! name = Some l_fun →
  format_call l_fun c = Raise e →
  low self (Some name) c t = (Raise e, t).
Proof.
  intros Hne Hreg Hfc. unfold low, bind.
  destruct name as [|ch name]; [done|]. simpl.
  destruct (decide (String ch name ∉ dom (functions self))) as [Hout|_].
  { exfalso. apply Hout, elem_of_dom. eauto. }
  simpl. unfold getitem_functions. simpl. rewrite Hreg. simpl.
  by rewrite Hfc.
Qed.

(** X5. [low] calls a registered callable once or not at all, and does
    nothing else to the world. It calls one, the callable registered under
    the name, exactly when the name passes the verification and
    [format_call] reconciles the call specification; when it calls nothing,
    it raises. *)
Theorem low_calls_at_most_once (self : client_obj) (fn : option string)
    (c : gmap string pyval) (t : list action) :
  (∃ name l_fun fc,
     fn = Some name ∧ name ≠ "" ∧
     functions self !! name = Some l_fun ∧
     format_call l_fun c = Return fc ∧
     (low self fn c t).2 =
       t ++ [Call name (default [] (fc_args fc)) (default ∅ (fc_kwargs fc))])
  ∨
  ((low self fn c t).2 = t ∧ ∃ e, (low self fn c t).1 = Raise e).
Proof.
  unfold low, bind.
  destruct fn as [[|ch name]|]; simpl; [right; eauto| |right; eauto].
  destruct (decide (String ch name ∉ dom (functions self))) as [Hout|Hin];
    simpl; [right; eauto|].
  apply dec_stable, elem_of_dom in Hin as [l_fun Hreg].
  unfold getitem_functions. simpl. rewrite Hreg. simpl.
  destruct (format_call l_fun c) as [fc|e] eqn:Hfc; simpl; [|right; eauto].
  left. exists (String ch name), l_fun, fc.
  split_and!; [done..|]. by destruct (call l_fun _ _).
Qed.

(** ** The worker, all outcomes *)

Lemma start_data_dom (self : client_obj) (fn : option string) (user : pyval)
    (jid : string) :
  dom (start_data self fn user jid) = {[ "fun"; "jid"; "user" ]}.
Proof.
  clear tagify format_call py_repr strip_rst_text.
  unfold start_data. rewrite !dom_insert_L, dom_singleton_L.
  apply set_eq. intros k. rewrite !elem_of_union, !elem_of_singleton. tauto.
Qed.

Lemma completion_data_dom (self : client_obj) (fn : option string)
    (user : pyval) (jid : string) (r : result pyval) :
  dom (completion_data self fn user jid r)
  = {[ "fun"; "jid"; "user"; "return"; "success" ]}.
Proof.
  clear tagify format_call py_repr strip_rst_text.
  unfold completion_data. destruct r; rewrite !dom_insert_L, start_data_dom;
    apply set_eq; intros k; rewrite !elem_of_union, !elem_of_singleton; tauto.
Qed.

(** X6. When the invocation returns a value, the worker ends normally and,
    with [fire_event], the last event it publishes is the completion event,
    whose payload has exactly the keys [fun], [jid], [user], [return] and
    [success]: the value returned, unchanged, under [return], true under
    [success], the client kind and the function name joined by a dot under
    [fun], and the job id and the user it was given. *)
Theorem proc_function_success_payload (self : client_obj)
    (fn : option string) (c : gmap string pyval) (user : pyval)
    (tag jid : string) (t : list action) (v : pyval) :
  outcome (low self fn c) = Return v →
  (_proc_function self fn c user tag jid true t).1 = Return tt ∧
  ∃ data,
    last (published (_proc_function self fn c user tag jid true t).2) =
      Some (tagify "ret" Default (Given tag), data) ∧
    dom data = {[ "fun"; "jid"; "user"; "return"; "success" ]} ∧
    data !! "return" = Some v ∧
    data !! "success" = Some (PyBool true) ∧
    data !! "fun" =
      Some (PyStr (py_str (client self) +:+ "." +:+ py_str fn)) ∧
    data !! "jid" = Some (PyStr jid) ∧
    data !! "user" = Some user.
Proof.
  intros Hret. rewrite proc_function_run. cbv zeta. rewrite Hret.
  split; [done|]. exists (completion_data self fn user jid (Return v)).
  split_and!.
  - unfold snd. rewrite !published_app. simpl. by rewrite last_snoc.
  - apply completion_data_dom.
  - unfold completion_data, start_data. by simplify_map_eq.
  - unfold completion_data, start_data. by simplify_map_eq.
  - unfold completion_data, start_data. by simplify_map_eq.
  - unfold completion_data, start_data. by simplify_map_eq.
  - unfold completion_data, start_data. by simplify_map_eq.
Qed.

(** X7. With [fire_event], whatever the invocation does afterwards, the first
    event the worker publishes is the start event, and its payload has
    exactly the keys [fun], [jid] and [user]: no [return] and no [success]
    yet. *)
Theorem proc_function_start_payload (self : client_obj)
    (fn : option string) (c : gmap string pyval) (user : pyval)
    (tag jid : string) (t : list action) :
  ∃ data rest,
    published (_proc_function self fn c user tag jid true t).2 =
      published t ++ (tagify "new" Default (Given tag), data) :: rest ∧
    dom data = {[ "fun"; "jid"; "user" ]} ∧
    data !! "fun" =
      Some (PyStr (py_str (client self) +:+ "." +:+ py_str fn)) ∧
    data !! "jid" = Some (PyStr jid) ∧
    data !! "user" = Some user ∧
    data !! "return" = None ∧
    data !! "success" = None.
Proof.
  assert (∃ rest,
    published (_proc_function self fn c user tag jid true t).2 =
      published t ++
      (tagify "new" Default (Given tag), start_data self fn user jid) :: rest)
    as [rest Hrest].
  { rewrite proc_function_run. cbv zeta.
    destruct (outcome (low self fn c)) as [v|e];
      [|destruct (exc_is_Exception e)]; unfold snd;
      rewrite !published_app, published_low; simpl;
      rewrite <-?app_assoc; simpl; eauto. }
  exists (start_data self fn user jid), rest.
  split_and!; [done|apply start_data_dom|..];
    unfold start_data; by simplify_map_eq.
Qed.

(** X9. The worker never uses [event] unbound: the block that fires the
    completion event and deletes [event] runs under the same [fire_event]
    test as the block that binds it, so no run, with or without
    [fire_event] and whatever the invocation does, fails on the name. *)
Theorem proc_function_event_bound (self : client_obj)
    (fn : option string) (c : gmap string pyval) (user : pyval)
    (tag jid : string) (fe : bool) (t : list action) :
  (_proc_function self fn c user tag jid fe t).1
    ≠ Raise (UnboundLocalError "event").
Proof.
  rewrite proc_function_run. cbv zeta.
  destruct (outcome (low self fn c)) as [v|e]; [done|].
  destruct (exc_is_Exception e) eqn:Hexc; [done|].
  simpl. intros [= ->]. done.
Qed.

(** X10. Every run of the worker uses the bus in order: it fires events only
    through an event object it has made and not yet deleted, makes no event
    object twice, and deletes only one it has made. This holds with and
    without [fire_event], and whatever the invocation does. *)
Theorem proc_function_bus_ok (self : client_obj) (fn : option string)
    (c : gmap string pyval) (user : pyval) (tag jid : string) (fe : bool) :
  bus_ok [] (actions (_proc_function self fn c user tag jid fe)) = true.
Proof.
  unfold actions. rewrite proc_function_run. cbv zeta.
  destruct (actions_low self fn c) as [Hacts|(name & args & kwargs & Hacts)];
    rewrite Hacts;
    destruct (outcome (low self fn c)) as [v|e];
    [|destruct (exc_is_Exception e)| |destruct (exc_is_Exception e)];
    by destruct fe.
Qed.

(** X11. Without [fire_event] the worker keeps off the bus: after
    daemonizing it does what the invocation does and nothing else; it makes
    no event object, fires nothing and deletes nothing. *)
Theorem proc_function_quiet (self : client_obj) (fn : option string)
    (c : gmap string pyval) (user : pyval) (tag jid : string)
    (t : list action) :
  (_proc_function self fn c user tag jid false t).2 =
    t ++ Daemonize :: actions (low self fn c) ∧
  Forall (λ a, touches_bus a = false) (Daemonize :: actions (low self fn c)).
Proof.
  split.
  - rewrite proc_function_run. cbv zeta.
    destruct (outcome (low self fn c)) as [v|e];
      [|destruct (exc_is_Exception e)]; simpl; by rewrite ?app_nil_r.
  - destruct (actions_low self fn c) as [->|(? & ? & ? & ->)];
      repeat constructor.
Qed.

(** X12. The worker daemonizes first, once: in every run, with or without
    [fire_event] and whatever the invocation does, daemonizing comes before
    the event object is made, before any event and before the callable is
    called. *)
Theorem proc_function_daemonizes_first (self : client_obj)
    (fn : option string) (c : gmap string pyval) (user : pyval)
    (tag jid : string) (fe : bool) (t : list action) :
  ∃ acts,
    (_proc_function self fn c user tag jid fe t).2 = t ++ Daemonize :: acts ∧
    Daemonize ∉ acts.
Proof.
  rewrite proc_function_run. cbv zeta.
  destruct (actions_low self fn c) as [Hacts|(name & args & kwargs & Hacts)];
    rewrite Hacts;
    destruct (outcome (low self fn c)) as [v|e];
    [|destruct (exc_is_Exception e)| |destruct (exc_is_Exception e)];
    destruct fe; simpl; eexists; (split; [by rewrite <-?app_assoc|]);
    rewrite ?app_nil_r; intros Hin;
    repeat (apply elem_of_cons in Hin as [Hin|Hin]; [discriminate Hin|]);
    by apply elem_of_nil in Hin.
Qed.

(** ** async and its worker *)

(** X13. What [async] returns is what its worker publishes under: the
    process [async] starts with [fire_event], when its invocation returns or
    raises an [Exception], ends normally having published exactly the start
    event and the completion event, on the topics made of the returned tag
    and [new] and [ret], both carrying the returned job id, the second
    carrying the user. Started without [fire_event], the process publishes
    nothing. *)
Theorem async_worker_events (self : client_obj) (now : datetime)
    (fn : option string) (c : gmap string pyval) (user : pyval)
    (t : list action) :
  ((∀ e, outcome (low self fn c) = Raise e → exc_is_Exception e = true) →
   ∃ tag jid a tr data_new data_ret,
     async self now fn c user true t =
       (Return {[ "tag" := PyStr tag; "jid" := PyStr jid ]}, t ++ [a]) ∧
     proc_run self a = Some (Return tt, tr) ∧
     published tr =
       [(tagify "new" Default (Given tag), data_new);
        (tagify "ret" Default (Given tag), data_ret)] ∧
     data_new !! "jid" = Some (PyStr jid) ∧
     data_ret !! "jid" = Some (PyStr jid) ∧
     data_ret !! "user" = Some user) ∧
  (∃ a r tr,
     (async self now fn c user false t).2 = t ++ [a] ∧
     proc_run self a = Some (r, tr) ∧
     published tr = []).
Proof.
  split.
  - intros Hexc.
    set (jid := format_jid now).
    set (tag := tagify jid (Given (tag_prefix self)) Default).
    exists tag, jid, (ProcStart fn c user tag jid true).
    exists ([Daemonize; GetEvent 1 "master" (opts self) false;
             FireEvent 1 (start_data self fn user jid)
                       (tagify "new" Default (Given tag))]
              ++ actions (low self fn c)
              ++ [FireEvent 1
                    (completion_data self fn user jid
                       (outcome (low self fn c)))
                    (tagify "ret" Default (Given tag));
                  DelEvent 1]).
    exists (start_data self fn user jid),
      (completion_data self fn user jid (outcome (low self fn c))).
    split_and!.
    + reflexivity.
    + unfold proc_run. rewrite proc_function_run. cbv zeta. f_equal.
      destruct (outcome (low self fn c)) as [v|e] eqn:Ho;
        [|rewrite (Hexc e eq_refl)]; simpl; by rewrite <-?app_assoc.
    + rewrite !published_app, published_low. done.
    + unfold start_data. by simplify_map_eq.
    + unfold completion_data, start_data.
      destruct (outcome (low self fn c)); by simplify_map_eq.
    + unfold completion_data, start_data.
      destruct (outcome (low self fn c)); by simplify_map_eq.
  - exists (ProcStart fn c user
              (tagify (format_jid now) (Given (tag_prefix self)) Default)
              (format_jid now) false).
    eexists _, _. split_and!.
    + reflexivity.
    + unfold proc_run. f_equal. apply surjective_pairing.
    + rewrite proc_function_run. cbv zeta.
      destruct (outcome (low self fn c)) as [v|e];
        [|destruct (exc_is_Exception e)]; unfold snd;
        rewrite !published_app, published_low; done.
Qed.

(** ** Job ids, again *)

Lemma zero_padded_length (w : nat) (n : N) :
  String.length (zero_padded w n) = w.
Proof. induction w as [|w IH]; simpl; [done|]. by rewrite IH. Qed.

Lemma digit_is_digit (n : N) : is_digit (digit n) = true.
Proof.
  unfold is_digit, digit.
  assert (n mod 10 < 10)%N as Hlt by (apply N.mod_lt; lia).
  revert Hlt. generalize (n mod 10)%N. intros m Hlt.
  rewrite Ascii.N_ascii_embedding by lia.
  apply andb_true_iff. split; apply N.leb_le; lia.
Qed.

Lemma all_digits_app (s1 s2 : string) :
  all_digits (s1 +:+ s2) = all_digits s1 && all_digits s2.
Proof.
  induction s1 as [|ch s1 IH]; [done|].
  change (String ch s1 +:+ s2) with (String ch (s1 +:+ s2)). simpl.
  by rewrite IH, andb_assoc.
Qed.

Lemma zero_padded_digits (w : nat) (n : N) :
  all_digits (zero_padded w n) = true.
Proof.
  induction w as [|w IH]; simpl; [done|]. by rewrite digit_is_digit, IH.
Qed.

Lemma datetime_compare_eq (a b : datetime) :
  datetime_compare a b = Eq → a = b.
Proof.
  destruct a as [y m d H M S us], b as [y' m' d' H' M' S' us'].
  unfold datetime_compare. simpl.
  destruct (N.compare_spec y y'); [subst|done..].
  destruct (N.compare_spec m m'); [subst|done..].
  destruct (N.compare_spec d d'); [subst|done..].
  destruct (N.compare_spec H H'); [subst|done..].
  destruct (N.compare_spec M M'); [subst|done..].
  destruct (N.compare_spec S S'); [subst|done..].
  destruct (N.compare_spec us us'); [subst|done..]. done.
Qed.

Lemma string_compare_refl (s : string) : String.compare s s = Eq.
Proof.
  induction s as [|ch s IH]; [done|]. simpl.
  unfold Ascii.compare. by rewrite N.compare_refl.
Qed.

(** X14. The job id [async] makes from a clock reading is a string of
    twenty decimal digits. *)
Theorem async_jid_twenty_digits (self : client_obj) (now : datetime)
    (fn : option string) (c : gmap string pyval) (user : pyval) (fe : bool)
    (t : list action) :
  valid_datetime now →
  ∃ d jid,
    (async self now fn c user fe t).1 = Return d ∧
    d !! "jid" = Some (PyStr jid) ∧
    String.length jid = 20 ∧
    all_digits jid = true.
Proof.
  intros _. eexists _, (format_jid now). split_and!.
  - done.
  - by simplify_map_eq.
  - unfold format_jid.
    by rewrite !string_length_app, !zero_padded_length.
  - unfold format_jid.
    by rewrite !all_digits_app, !zero_padded_digits.
Qed.

(** X15. Job ids collide within one microsecond only: two calls of [async]
    that get the same job id observed the same clock reading. *)
Theorem async_jid_collision (self : client_obj) (now1 now2 : datetime)
    (fn1 fn2 : option string) (c1 c2 : gmap string pyval)
    (user1 user2 : pyval) (fe1 fe2 : bool) (t1 t2 : list action)
    (d1 d2 : gmap string pyval) :
  valid_datetime now1 → valid_datetime now2 →
  (async self now1 fn1 c1 user1 fe1 t1).1 = Return d1 →
  (async self now2 fn2 c2 user2 fe2 t2).1 = Return d2 →
  d1 !! "jid" = d2 !! "jid" →
  now1 = now2.
Proof.
  intros Hv1 Hv2 [= <-] [= <-] Hjid.
  rewrite !lookup_insert_ne, !lookup_singleton_eq in Hjid by done.
  assert (format_jid now1 = format_jid now2) as Hsame by congruence.
  apply datetime_compare_eq. rewrite <-format_jid_compare by done.
  rewrite Hsame. apply string_compare_refl.
Qed.

(** ** The empty registry *)

(** X16. With the empty registry, the default of the class, [get_docs] gives
    the empty dictionary for every argument, and [low] fails for every name
    with a [CommandExecutionError], calling nothing: it cannot find the
    function, or was given none. *)
Theorem empty_registry (self : client_obj) :
  functions self = ∅ →
  (∀ arg, get_docs self arg = []) ∧
  (∀ fn c t,
     ∃ err, low self fn c t = (Raise (CommandExecutionError err), t)).
Proof.
  intros Hempty. split.
  - intros arg. rewrite get_docs_fmap.
    assert (selected self None = []) as Hnone.
    { simpl. rewrite Hempty. unfold keys. by rewrite map_to_list_empty. }
    destruct arg as [[|ch a]|]; simpl in *; by rewrite ?Hnone.
  - intros fn c t. unfold low, bind.
    destruct fn as [[|ch name]|]; simpl; eauto.
    rewrite Hempty, dom_empty_L.
    destruct (decide _) as [_|Hin]; simpl; [eauto|].
    exfalso. apply Hin. apply not_elem_of_empty.
Qed.

End Mixins.

(** * The theorems at work on the sample clients *)

Lemma verify_fun_spec_witness :
  (_verify_fun sample_repr sample_client (Some "test.ping") []).1 = Return tt.
Proof.
  apply (verify_fun_spec sample_repr sample_client (Some "test.ping") []).
  exists "test.ping". split_and!; [done|done|].
  apply elem_of_dom. by exists ping.
Defined.

Lemma low_spec_witness :
  functions sample_client !! "test.ping" = Some ping ∧
  sample_format_call ping ∅ = Return {| fc_args := None; fc_kwargs := Some ∅ |} ∧
  (low sample_format_call sample_repr sample_client (Some "test.ping") ∅ []).1
    = Return (PyStr "pong").
Proof.
  assert (functions sample_client !! "test.ping" = Some ping) as Hreg
    by reflexivity.
  split_and!; [done|done|].
  pose proof (low_spec sample_format_call sample_repr sample_client
                "test.ping" ping ∅ _ [] Hreg eq_refl) as [Hlow _].
  simpl in Hlow. destruct (decide _) as [Hout|Hin] in Hlow.
  - exfalso. apply Hout, elem_of_dom. by exists ping.
  - destruct Hlow as [_ ->]. done.
Defined.

Lemma get_docs_prefix_witness :
  "pkg" ≠ "" ∧ endswith "pkg" "." = false ∧
  "pkg" ∈ (get_docs sample_strip pkg_client (Some "pkg")).*1 ∧
  "pkg.install" ∈ (get_docs sample_strip pkg_client (Some "pkg")).*1 ∧
  "pkgx" ∉ (get_docs sample_strip pkg_client (Some "pkg")).*1.
Proof.
  assert ("pkg" ≠ "") as Hne by done.
  destruct (get_docs_prefix sample_strip pkg_client "pkg" Hne eq_refl)
    as (_ & _ & Hself & Hsub & Hout).
  split_and!; [done|done| | |done].
  - apply Hself. by exists ping.
  - apply (Hsub "install"). by exists ping.
Defined.

Lemma get_docs_dotted_witness :
  endswith "pkg." "." = true ∧
  ("pkg" ∉ (get_docs sample_strip pkg_client (Some "pkg.")).*1) ∧
  "pkg" ∈ (get_docs sample_strip pkg_client (Some "pkg")).*1.
Proof.
  destruct (get_docs_dotted sample_strip pkg_client "pkg." eq_refl)
    as (_ & _ & Hbare).
  destruct (Hbare "pkg" eq_refl) as [Hout Hin].
  split_and!; [done|done|]. apply Hin. by exists ping.
Defined.

(** At an empty argument, [get_docs] gives every entry: here one whose name
    is neither the argument nor a name starting with the argument and a
    dot. *)
Lemma get_docs_empty_argument :
  endswith "" "." = false ∧
  ("test.ping", Some "Return pong")
    ∈ get_docs sample_strip sample_client (Some "") ∧
  "test.ping" ≠ "" ∧
  startswith "test.ping" ("" +:+ ".") = false.
Proof.
  split_and!; [done| |done|done].
  apply list_elem_of_In. vm_compute. tauto.
Qed.

Lemma get_docs_names_sorted_witness :
  (get_docs sample_strip pkg_client None).*1
    = ["apt"; "pkg"; "pkg."; "pkg.install"; "pkgx"] ∧
  StronglySorted str_lt (get_docs sample_strip pkg_client None).*1.
Proof.
  split; [by vm_compute|].
  apply (get_docs_names_sorted sample_strip pkg_client).
Defined.

Lemma sample_fail_raises :
  outcome (low sample_format_call sample_repr sample_client
               (Some "test.fail") ∅) = Raise (ValueError "boom").
Proof. by vm_compute. Qed.

Lemma sample_fail_Exception (e : exn) :
  outcome (low sample_format_call sample_repr sample_client
               (Some "test.fail") ∅) = Raise e →
  exc_is_Exception e = true.
Proof. rewrite sample_fail_raises. by intros [= <-]. Qed.

Lemma proc_function_contains_Exception_witness :
  outcome (low sample_format_call sample_repr sample_client
               (Some "test.fail") ∅) = Raise (ValueError "boom") ∧
  exc_is_Exception (ValueError "boom") = true ∧
  (_proc_function sample_tagify sample_format_call sample_repr sample_client
     (Some "test.fail") ∅ (PyStr "UNKNOWN") "salt/run/1" "1" true []).1
    = Return tt.
Proof.
  split_and!; [apply sample_fail_raises|done|].
  apply (proc_function_contains_Exception sample_tagify sample_format_call
           sample_repr sample_client (Some "test.fail") ∅ (PyStr "UNKNOWN")
           "salt/run/1" "1" true [] (ValueError "boom")
           sample_fail_raises eq_refl).
Defined.

Lemma proc_function_events_witness :
  (∀ e, outcome (low sample_format_call sample_repr sample_client
                     (Some "test.fail") ∅) = Raise e →
        exc_is_Exception e = true) ∧
  length (published
            (_proc_function sample_tagify sample_format_call sample_repr
               sample_client (Some "test.fail") ∅ (PyStr "UNKNOWN")
               "salt/run/1" "1" true []).2) = 2 ∧
  published
    (_proc_function sample_tagify sample_format_call sample_repr
       sample_client (Some "test.fail") ∅ (PyStr "UNKNOWN")
       "salt/run/1" "1" false []).2 = [].
Proof.
  split; [apply sample_fail_Exception|].
  destruct (proc_function_events sample_tagify sample_format_call sample_repr
              sample_client (Some "test.fail") ∅ (PyStr "UNKNOWN")
              "salt/run/1" "1" []) as [Htwo ->].
  destruct (Htwo sample_fail_Exception)
    as (ev & data_new & data_ret & _ & _ & -> & _).
  done.
Defined.


Lemma async_does_not_verify_witness :
  (async sample_tagify sample_client sample_now (Some "no.such") ∅
         (PyStr "UNKNOWN") true []).1
    = Return {[ "tag" := PyStr "salt/run/20140309070500004321";
                "jid" := PyStr "20140309070500004321" ]}.
Proof.
  destruct (async_does_not_verify sample_tagify sample_format_call
              sample_repr sample_client sample_now (Some "no.such") ∅
              (PyStr "UNKNOWN") true []) as [-> _].
  done.
Defined.

Lemma async_jid_monotone_witness :
  valid_datetime sample_now ∧ valid_datetime sample_later ∧
  datetime_lt sample_now sample_later ∧
  ∃ d1 d2 jid1 jid2,
    (async sample_tagify sample_client sample_now (Some "test.ping") ∅
           (PyStr "UNKNOWN") true []).1 = Return d1 ∧
    (async sample_tagify sample_client sample_later (Some "test.ping") ∅
           (PyStr "UNKNOWN") true []).1 = Return d2 ∧
    d1 !! "jid" = Some (PyStr jid1) ∧
    d2 !! "jid" = Some (PyStr jid2) ∧
    String.compare jid1 jid2 = datetime_compare sample_now sample_later ∧
    (datetime_lt sample_now sample_later → str_lt jid1 jid2) ∧
    (sample_now = sample_later → jid1 = jid2).
Proof.
  assert (valid_datetime sample_now) as Hv1.
  { unfold valid_datetime. simpl. lia. }
  assert (valid_datetime sample_later) as Hv2.
  { unfold valid_datetime. simpl. lia. }
  split_and!; [done|done|done|].
  apply (async_jid_monotone sample_tagify sample_client sample_now
           sample_later (Some "test.ping") (Some "test.ping") ∅ ∅
           (PyStr "UNKNOWN") (PyStr "UNKNOWN") true true [] [] Hv1 Hv2).
Defined.

(** ** Where an exception that is not an [Exception] gets through *)

(** The callable raises [SystemExit]: the exception leaves
    [_proc_function], and no completion event is published. *)
Lemma proc_function_SystemExit_escapes :
  outcome (low sample_format_call sample_repr sample_client
               (Some "test.exit") ∅) = Raise (SystemExit "1") ∧
  (_proc_function sample_tagify sample_format_call sample_repr sample_client
     (Some "test.exit") ∅ (PyStr "UNKNOWN") "salt/run/1" "1" true []).1
    = Raise (SystemExit "1") ∧
  (published
     (_proc_function sample_tagify sample_format_call sample_repr
        sample_client (Some "test.exit") ∅ (PyStr "UNKNOWN")
        "salt/run/1" "1" true []).2).*1 = ["salt/run/1/new"].
Proof. by vm_compute. Qed.

(** The same run publishes one event, not two. *)
Lemma proc_function_SystemExit_one_event :
  call exit [] ∅ = Raise (SystemExit "1") ∧
  length (published
            (_proc_function sample_tagify sample_format_call sample_repr
               sample_client (Some "test.exit") ∅ (PyStr "UNKNOWN")
               "salt/run/1" "1" true []).2) = 1.
Proof. by vm_compute. Qed.

(** ** Where the order of a dictionary shows *)

(** The names [a], [b], [c] are inserted in this order and come back as
    [a], [c], [b]: their hashes end in the bits of the slots 0, 3 and 2. *)
Lemma get_docs_iterates_in_hash_order :
  (get_docs sample_strip abc_client None).*1 = ["a"; "b"; "c"] ∧
  (iteritems (get_docs sample_strip abc_client None)).*1 = ["a"; "c"; "b"] ∧
  ¬ StronglySorted str_lt
      (iteritems (get_docs sample_strip abc_client None)).*1.
Proof.
  split_and!; [by vm_compute..|].
  assert ((iteritems (get_docs sample_strip abc_client None)).*1
          = ["a"; "c"; "b"]) as -> by (by vm_compute).
  intros Hsorted. apply StronglySorted_inv in Hsorted as [Htail _].
  apply StronglySorted_inv in Htail as [_ Hc].
  apply Forall_inv in Hc. discriminate Hc.
Qed.

(** Eight one-letter names fill the first table and the next one. *)
Example iteritems_eight_letters :
  (iteritems ((λ k, (k, tt)) <$> ["a"; "b"; "c"; "d"; "e"; "f"; "g"; "h"])).*1
    = ["a"; "c"; "b"; "e"; "d"; "g"; "f"; "h"].
Proof. by vm_compute. Qed.

(** ** The event object on the way out by an exception *)

Example proc_function_SystemExit_releases :
  (_proc_function sample_tagify sample_format_call sample_repr sample_client
     (Some "test.exit") ∅ (PyStr "UNKNOWN") "salt/run/1" "1" true []).1
    = Raise (SystemExit "1") ∧
  last (_proc_function sample_tagify sample_format_call sample_repr
          sample_client (Some "test.exit") ∅ (PyStr "UNKNOWN")
          "salt/run/1" "1" true []).2 = Some (DelEvent 1) ∧
  open_events
    (_proc_function sample_tagify sample_format_call sample_repr
       sample_client (Some "test.exit") ∅ (PyStr "UNKNOWN")
       "salt/run/1" "1" true []).2 = [].
Proof. by vm_compute. Qed.

(** ** The scenario of the specification, on the sample client *)

Example low_ping :
  outcome (low sample_format_call sample_repr sample_client
               (Some "test.ping") ∅) = Return (PyStr "pong").
Proof. by vm_compute. Qed.

Example verify_missing_name :
  outcome (_verify_fun sample_repr sample_client (Some "no.such"))
    = Raise (CommandExecutionError "Function 'no.such' is unavailable").
Proof. by vm_compute. Qed.

Example async_ping_topics :
  (published
     (_proc_function sample_tagify sample_format_call sample_repr
        sample_client (Some "test.ping") ∅ (PyStr "UNKNOWN")
        "salt/run/20140309070500004321" "20140309070500004321" true []).2).*1
    = ["salt/run/20140309070500004321/new";
       "salt/run/20140309070500004321/ret"].
Proof. by vm_compute. Qed.

Example get_docs_pkg :
  (get_docs sample_strip pkg_client (Some "pkg")).*1
    = ["pkg"; "pkg."; "pkg.install"] ∧
  (get_docs sample_strip pkg_client (Some "pkg.")).*1
    = ["pkg."; "pkg.install"].
Proof. by vm_compute. Qed.

(** * The further properties at work on the sample clients *)

Lemma get_docs_dot_drops_bare_name_witness :
  "pkg" ≠ "" ∧ endswith "pkg" "." = false ∧
  get_docs sample_strip pkg_client (Some ("pkg" +:+ ".")) =
    filter (λ kv, kv.1 ≠ "pkg") (get_docs sample_strip pkg_client (Some "pkg")).
Proof.
  assert ("pkg" ≠ "") as Hne by done.
  split_and!; [done|done|].
  apply (get_docs_dot_drops_bare_name sample_strip pkg_client "pkg" Hne
           eq_refl).
Defined.

Lemma low_format_call_failure_witness :
  "test.ping" ≠ "" ∧
  functions sample_client !! "test.ping" = Some ping ∧
  strict_format_call ping ∅ = Raise (SaltInvocationError "arg is required") ∧
  low strict_format_call sample_repr sample_client (Some "test.ping") ∅ []
    = (Raise (SaltInvocationError "arg is required"), []).
Proof.
  assert ("test.ping" ≠ "") as Hne by done.
  assert (functions sample_client !! "test.ping" = Some ping) as Hreg
    by reflexivity.
  assert (strict_format_call ping ∅
          = Raise (SaltInvocationError "arg is required")) as Hfc
    by reflexivity.
  split_and!; [done|done|done|].
  apply (low_format_call_failure strict_format_call sample_repr sample_client
           "test.ping" ping ∅ _ [] Hne Hreg Hfc).
Defined.

Lemma sample_ping_returns :
  outcome (low sample_format_call sample_repr sample_client
               (Some "test.ping") ∅) = Return (PyStr "pong").
Proof. by vm_compute. Qed.

Lemma sample_exit_raises :
  outcome (low sample_format_call sample_repr sample_client
               (Some "test.exit") ∅) = Raise (SystemExit "1").
Proof. by vm_compute. Qed.

Lemma proc_function_success_payload_witness :
  outcome (low sample_format_call sample_repr sample_client
               (Some "test.ping") ∅) = Return (PyStr "pong") ∧
  (_proc_function sample_tagify sample_format_call sample_repr sample_client
     (Some "test.ping") ∅ (PyStr "UNKNOWN") "salt/run/1" "1" true []).1
    = Return tt.
Proof.
  split; [apply sample_ping_returns|].
  apply (proc_function_success_payload sample_tagify sample_format_call
           sample_repr sample_client (Some "test.ping") ∅ (PyStr "UNKNOWN")
           "salt/run/1" "1" [] (PyStr "pong") sample_ping_returns).
Defined.

Lemma proc_function_propagates_witness :
  outcome (low sample_format_call sample_repr sample_client
               (Some "test.exit") ∅) = Raise (SystemExit "1") ∧
  exc_is_Exception (SystemExit "1") = false ∧
  (_proc_function sample_tagify sample_format_call sample_repr sample_client
     (Some "test.exit") ∅ (PyStr "UNKNOWN") "salt/run/1" "1" false []).1
    = Raise (SystemExit "1").
Proof.
  split_and!; [apply sample_exit_raises|done|].
  apply (proc_function_propagates sample_tagify sample_format_call
           sample_repr sample_client (Some "test.exit") ∅ (PyStr "UNKNOWN")
           "salt/run/1" "1" false [] (SystemExit "1") sample_exit_raises
           eq_refl).
Defined.

Lemma async_worker_events_witness :
  ∃ a r tr,
    (async sample_tagify sample_client sample_now (Some "test.fail") ∅
           (PyStr "UNKNOWN") false []).2 = [] ++ [a] ∧
    proc_run sample_tagify sample_format_call sample_repr sample_client a
      = Some (r, tr) ∧
    published tr = [].
Proof.
  apply (async_worker_events sample_tagify sample_format_call sample_repr
           sample_client sample_now (Some "test.fail") ∅ (PyStr "UNKNOWN")
           []).
Defined.

Lemma sample_now_valid : valid_datetime sample_now.
Proof. unfold valid_datetime. simpl. lia. Qed.

Lemma async_jid_twenty_digits_witness :
  valid_datetime sample_now ∧
  ∃ d jid,
    (async sample_tagify sample_client sample_now (Some "test.ping") ∅
           (PyStr "UNKNOWN") true []).1 = Return d ∧
    d !! "jid" = Some (PyStr jid) ∧
    String.length jid = 20 ∧
    all_digits jid = true.
Proof.
  split; [apply sample_now_valid|].
  apply (async_jid_twenty_digits sample_tagify sample_client sample_now
           (Some "test.ping") ∅ (PyStr "UNKNOWN") true [] sample_now_valid).
Defined.

Lemma async_jid_collision_witness :
  valid_datetime sample_now ∧ sample_now = sample_now.
Proof.
  split; [apply sample_now_valid|].
  apply (async_jid_collision sample_tagify sample_client sample_now
           sample_now (Some "test.ping") (Some "test.fail") ∅ ∅
           (PyStr "UNKNOWN") (PyStr "root") true false [] [] _ _
           sample_now_valid sample_now_valid eq_refl eq_refl eq_refl).
Defined.

Lemma empty_registry_witness :
  functions empty_client = ∅ ∧
  get_docs sample_strip empty_client (Some "pkg") = [] ∧
  ∃ err,
    low sample_format_call sample_repr empty_client (Some "test.ping") ∅ []
      = (Raise (CommandExecutionError err), []).
Proof.
  destruct (empty_registry sample_format_call sample_repr sample_strip
              empty_client eq_refl) as [Hdocs Hlow].
  split_and!; [done|apply Hdocs|apply Hlow].
Defined.
